(** * The books service (main.go): handlers, routing and the books table

    A shallow embedding of the HTTP handlers of [main.go].  The handlers
    are written against [*sql.DB]; here every handler is a small program
    tree whose nodes are the calls it makes on the database handle and
    on the logger, so that a statement such as "the database is not
    consulted" is a statement about the tree itself.  The trees are then
    run against any driver behaviour ([run]), and in particular against
    a model of the [books] table as [ensureSchema] declares it ([pg]). *)

From Stdlib Require Import ZArith Ascii String.
From stdpp Require Import base option list gmap sorting strings.

Local Open Scope string_scope.
Local Open Scope list_scope.
Local Open Scope Z_scope.

(** ** strings.TrimPrefix and strconv.ParseInt (Go standard library) *)

Module strings.

Fixpoint HasPrefix (s prefix : string) {struct prefix} : bool :=
  match prefix, s with
  | EmptyString, _ => true
  | String _ _, EmptyString => false
  | String p prefix', String c s' => Ascii.eqb c p && HasPrefix s' prefix'
  end.

Fixpoint skip (n : string) (s : string) : string :=
  match n, s with
  | String _ n', String _ s' => skip n' s'
  | _, _ => s
  end.

(** [if HasPrefix(s, prefix) { return s[len(prefix):] }; return s] *)
Definition TrimPrefix (s prefix : string) : string :=
  if HasPrefix s prefix then skip prefix s else s.

End strings.

Module strconv.

Inductive NumError := ErrSyntax | ErrRange.

Definition maxUint64 : Z := 2 ^ 64 - 1.

(** The digit loop of [ParseUint(s, 10, 64)]: [n] is the value read so
    far, a [uint64].  A byte outside ['0'..'9'] is a syntax error (in
    base 10 a letter is a digit that is not below the base, and any
    other byte has no digit value); [n >= cutoff] means that [n * 10]
    overflows, and [n1 < n] is the wrap-around test of the addition. *)
Fixpoint ParseUint_loop (s : string) (n : Z) : Z * option NumError :=
  match s with
  | EmptyString => (n, None)
  | String c s' =>
      let b := Z.of_N (N_of_ascii c) in
      if (48 <=? b) && (b <=? 57) then
        let d := b - 48 in
        if maxUint64 / 10 + 1 <=? n then (maxUint64, Some ErrRange)
        else
          let n := n * 10 in
          let n1 := (n + d) mod 2 ^ 64 in
          if (n1 <? n) || (maxUint64 <? n1) then (maxUint64, Some ErrRange)
          else ParseUint_loop s' n1
      else (0, Some ErrSyntax)
  end.

Definition ParseUint (s : string) : Z * option NumError :=
  match s with
  | EmptyString => (0, Some ErrSyntax)
  | _ => ParseUint_loop s 0
  end.

(** [ParseInt(s, 10, 64)]: an optional sign, then [ParseUint], then
    the range of [int64]. *)
Definition ParseInt (s : string) : Z * option NumError :=
  match s with
  | EmptyString => (0, Some ErrSyntax)
  | String c rest =>
      let '(neg, s1) :=
        if Ascii.eqb c "+"%char then (false, rest)
        else if Ascii.eqb c "-"%char then (true, rest)
        else (false, s) in
      let '(un, err) := ParseUint s1 in
      match err with
      | Some ErrSyntax => (0, Some ErrSyntax)
      | _ =>
          let cutoff := 2 ^ 63 in
          if negb neg && (cutoff <=? un) then (cutoff - 1, Some ErrRange)
          else if neg && (cutoff <? un) then (- cutoff, Some ErrRange)
          else (if neg then - un else un, None)
      end
  end.

End strconv.

(** *** What "a base-10 integer" is

    The router's "parsed as a base-10 integer", written out on its own
    and not read off [ParseInt]: [decimal s] is the integer that [s]
    writes in base 10, an optional sign followed by one or more digits,
    when [s] has that form.  [ParseInt_decimal] below compares the two. *)
Definition digit (c : ascii) : option Z :=
  let b := Z.of_N (N_of_ascii c) in
  if (48 <=? b) && (b <=? 57) then Some (b - 48) else None.

Fixpoint digits_value (s : string) (n : Z) : option Z :=
  match s with
  | EmptyString => Some n
  | String c s' =>
      match digit c with
      | Some d => digits_value s' (10 * n + d)
      | None => None
      end
  end.

Definition unsigned_decimal (s : string) : option Z :=
  match s with
  | EmptyString => None
  | _ => digits_value s 0
  end.

Definition decimal (s : string) : option Z :=
  match s with
  | EmptyString => None
  | String c rest =>
      if Ascii.eqb c "-"%char then Z.opp <$> unsigned_decimal rest
      else if Ascii.eqb c "+"%char then unsigned_decimal rest
      else unsigned_decimal s
  end.

(** ** Data: Book, bookPayload, errors, JSON values *)

(** [time.Time] values are instants on the database server's clock. *)
Definition Time := Z.

Record Book := mkBook {
  ID : Z;
  Title : string;
  Author : string;
  CreatedAt : Time;
  UpdatedAt : Time
}.

Record bookPayload := mkPayload {
  pTitle : string;
  pAuthor : string
}.

(** Errors as the handlers tell them apart: [sql.ErrNoRows], and any
    other error with the text its [Error()] method gives. *)
Inductive error :=
| ErrNoRows
| ErrOther (text : string).

Definition Error (e : error) : string :=
  match e with
  | ErrNoRows => "sql: no rows in result set"
  | ErrOther text => text
  end.

(** [errors.Is(err, sql.ErrNoRows)] *)
Definition is_ErrNoRows (e : error) : bool :=
  match e with
  | ErrNoRows => true
  | ErrOther _ => false
  end.

Inductive res (A : Type) :=
| Ok (a : A)
| Err (e : error).
Arguments Ok {A} a.
Arguments Err {A} e.

(** A Go slice of books: [None] is the nil slice of [var books []Book]. *)
Definition slice (A : Type) := option (list A).

Definition append {A} (s : slice A) (x : A) : slice A :=
  match s with
  | None => Some [x]
  | Some l => Some (l ++ [x])
  end.

(** JSON documents.  [JTime t] is the RFC 3339 string of the instant [t]. *)
Local Unset Elimination Schemes.
Inductive json :=
| JNull
| JNumber (n : Z)
| JString (s : string)
| JTime (t : Time)
| JArray (items : list json)
| JObject (fields : list (string * json)).
Local Set Elimination Schemes.

(** The values the handlers hand to [respondJSON] as [v any]. *)
Inductive value :=
| VBook (b : Book)
| VBooks (bs : slice Book)
| VMap (m : list (string * string)).

Definition Marshal_Book (b : Book) : json :=
  JObject [("id", JNumber (ID b)); ("title", JString (Title b));
           ("author", JString (Author b)); ("created_at", JTime (CreatedAt b));
           ("updated_at", JTime (UpdatedAt b))].

(** encoding/json: a struct encodes as an object under its field tags, a
    slice as an array, except that a nil slice encodes as [null]; a
    [map[string]string] as an object. *)
Definition Marshal (v : value) : json :=
  match v with
  | VBook b => Marshal_Book b
  | VBooks None => JNull
  | VBooks (Some l) => JArray (Marshal_Book <$> l)
  | VMap m => JObject (prod_map id JString <$> m)
  end.

(** ** http.ResponseWriter and http.Request *)

Record ResponseWriter := mkWriter {
  Header : list (string * string);
  Status : option Z;
  Body : list json
}.

(** The writer a handler is called with: nothing set, nothing written. *)
Definition fresh : ResponseWriter := mkWriter [] None [].

Definition Header_Set (w : ResponseWriter) (key val : string) : ResponseWriter :=
  mkWriter ((key, val) :: filter (λ kv, kv.1 ≠ key) (Header w)) (Status w) (Body w).

(** Only the first status line counts. *)
Definition WriteHeader (w : ResponseWriter) (code : Z) : ResponseWriter :=
  match Status w with
  | Some _ => w
  | None => mkWriter (Header w) (Some code) (Body w)
  end.

(** [json.NewEncoder(w).Encode(v)]: one more document in the body (a
    write before any status line sends 200).  The write to the client is
    taken to succeed; when it does not, [respondJSON] only logs. *)
Definition Encode (w : ResponseWriter) (v : value) : ResponseWriter :=
  let w := WriteHeader w 200 in
  mkWriter (Header w) (Status w) (Body w ++ [Marshal v]).

Record Request := mkRequest {
  Method : string;
  URL_Path : string;
  ReqBody : string
}.

(** The constants of net/http that the handlers name. *)
Module http.

Definition MethodGet : string := "GET".
Definition MethodPost : string := "POST".
Definition MethodPut : string := "PUT".
Definition MethodDelete : string := "DELETE".

Definition StatusOK : Z := 200.
Definition StatusCreated : Z := 201.
Definition StatusNoContent : Z := 204.
Definition StatusBadRequest : Z := 400.
Definition StatusNotFound : Z := 404.
Definition StatusMethodNotAllowed : Z := 405.
Definition StatusInternalServerError : Z := 500.

End http.

(** ** database/sql as the handlers use it *)

Inductive sqlArg :=
| ArgText (s : string)
| ArgInt (n : Z).

(** [*sql.Rows]: each element of [scans] is one [rows.Next()] that
    returned true, with what the following [rows.Scan] gives; [rows_Err]
    is why [Next] finally returned false. *)
Record Rows := mkRows {
  scans : list (res Book);
  rows_Err : option error
}.

(** [sql.Result]: [RowsAffected()] returns a count and an error. *)
Record Result := mkResult {
  RowsAffected : Z * option error
}.

(** The calls on [s.db], indexed by what they give back. *)
Inductive dbCall : Type → Type :=
| Query (query : string) (args : list sqlArg) : dbCall (res Rows)
| QueryRow_Scan (query : string) (args : list sqlArg) : dbCall (res Book)
| Exec (query : string) (args : list sqlArg) : dbCall (res Result).

(** A handler: the calls it makes and the lines it logs, in order. *)
Inductive prog (A : Type) : Type :=
| Ret (a : A)
| Call {X : Type} (c : dbCall X) (k : X → prog A)
| Printf (line : string) (k : prog A).
Arguments Ret {A} a.
Arguments Call {A X} c k.
Arguments Printf {A} line k.

(** Running a handler against a driver [d] over connection states [S]:
    the result, the final state, and the server log. *)
Fixpoint run {S A : Type} (d : ∀ X, dbCall X → S → X * S)
    (p : prog A) (s : S) : A * S * list string :=
  match p with
  | Ret a => (a, s, [])
  | Call c k => let '(x, s') := d _ c s in run d (k x) s'
  | Printf line k => let '(a, s', out) := run d k s in (a, s', line :: out)
  end.

(** The statements sent by a handler, in order (what [run] asks of [d]). *)
Fixpoint calls {S A : Type} (d : ∀ X, dbCall X → S → X * S)
    (p : prog A) (s : S) : list (string * list sqlArg) :=
  match p with
  | Ret _ => []
  | Call c k =>
      let stmt := match c with
                  | Query q a | QueryRow_Scan q a | Exec q a => (q, a)
                  end in
      let '(x, s') := d _ c s in stmt :: calls d (k x) s'
  | Printf _ k => calls d k s
  end.

(** ** The handlers *)

Definition sqlList : string :=
  "SELECT id, title, author, created_at, updated_at FROM books ORDER BY id".
Definition sqlGet : string :=
  "SELECT id, title, author, created_at, updated_at FROM books WHERE id = $1".
Definition sqlInsert : string :=
  "INSERT INTO books (title, author) VALUES ($1, $2) RETURNING id, title, author, created_at, updated_at".
Definition sqlUpdate : string :=
  "UPDATE books SET title = $1, author = $2, updated_at = NOW() WHERE id = $3 RETURNING id, title, author, created_at, updated_at".
Definition sqlDelete : string :=
  "DELETE FROM books WHERE id = $1".

Definition respondJSON (w : ResponseWriter) (status : Z) (v : value) : ResponseWriter :=
  Encode (WriteHeader (Header_Set w "Content-Type" "application/json") status) v.

Definition respondError (w : ResponseWriter) (status : Z) (msg : string) : ResponseWriter :=
  respondJSON w status (VMap [("error", msg)]).

Definition respondInternalError (w : ResponseWriter) (err : error) : prog ResponseWriter :=
  Printf ("internal error: " +:+ Error err)
    (Ret (respondError w http.StatusInternalServerError "internal server error")).

(** The [for rows.Next()] loop of [listBooks]; [rows.Err()] is not read. *)
Fixpoint listBooks_loop (w : ResponseWriter) (rs : list (res Book))
    (books : slice Book) : prog ResponseWriter :=
  match rs with
  | [] => Ret (respondJSON w http.StatusOK (VBooks books))
  | Err err :: _ => respondInternalError w err
  | Ok b :: rs => listBooks_loop w rs (append books b)
  end.

Definition listBooks (w : ResponseWriter) : prog ResponseWriter :=
  Call (Query sqlList []) (λ r,
    match r with
    | Err err => respondInternalError w err
    | Ok rows => listBooks_loop w (scans rows) None
    end).

Definition getBook (w : ResponseWriter) (id : Z) : prog ResponseWriter :=
  Call (QueryRow_Scan sqlGet [ArgInt id]) (λ r,
    match r with
    | Err err =>
        if is_ErrNoRows err then Ret (respondError w http.StatusNotFound "book not found")
        else respondInternalError w err
    | Ok b => Ret (respondJSON w http.StatusOK (VBook b))
    end).

Definition deleteBook (w : ResponseWriter) (id : Z) : prog ResponseWriter :=
  Call (Exec sqlDelete [ArgInt id]) (λ r,
    match r with
    | Err err => respondInternalError w err
    | Ok res =>
        let '(affected, _) := RowsAffected res in
        if affected =? 0 then Ret (respondError w http.StatusNotFound "book not found")
        else Ret (WriteHeader w http.StatusNoContent)
    end).

Section Handlers.

(** [json.NewDecoder(r.Body).Decode(&payload)] on a request body: the
    decoded payload (a field that the body does not give is left
    empty), or the decoder's error. *)
Variable Decode : string → res bookPayload.

Definition createBook (w : ResponseWriter) (r : Request) : prog ResponseWriter :=
  match Decode (ReqBody r) with
  | Err _ => Ret (respondError w http.StatusBadRequest "invalid JSON")
  | Ok payload =>
      if String.eqb (pTitle payload) "" || String.eqb (pAuthor payload) "" then
        Ret (respondError w http.StatusBadRequest "title and author are required")
      else
        Call (QueryRow_Scan sqlInsert [ArgText (pTitle payload); ArgText (pAuthor payload)])
          (λ r,
            match r with
            | Err err => respondInternalError w err
            | Ok b => Ret (respondJSON w http.StatusCreated (VBook b))
            end)
  end.

Definition updateBook (w : ResponseWriter) (r : Request) (id : Z) : prog ResponseWriter :=
  match Decode (ReqBody r) with
  | Err _ => Ret (respondError w http.StatusBadRequest "invalid JSON")
  | Ok payload =>
      if String.eqb (pTitle payload) "" || String.eqb (pAuthor payload) "" then
        Ret (respondError w http.StatusBadRequest "title and author are required")
      else
        Call (QueryRow_Scan sqlUpdate
                [ArgText (pTitle payload); ArgText (pAuthor payload); ArgInt id])
          (λ r,
            match r with
            | Err err =>
                if is_ErrNoRows err then
                  Ret (respondError w http.StatusNotFound "book not found")
                else respondInternalError w err
            | Ok b => Ret (respondJSON w http.StatusOK (VBook b))
            end)
  end.

Definition handleBooks (w : ResponseWriter) (r : Request) : prog ResponseWriter :=
  if String.eqb (Method r) http.MethodGet then listBooks w
  else if String.eqb (Method r) http.MethodPost then createBook w r
  else Ret (respondError w http.StatusMethodNotAllowed "method not allowed").

Definition handleBookByID (w : ResponseWriter) (r : Request) : prog ResponseWriter :=
  let idStr := strings.TrimPrefix (URL_Path r) "/books/" in
  let '(id, err) := strconv.ParseInt idStr in
  match err with
  | Some _ => Ret (respondError w http.StatusBadRequest "invalid id")
  | None =>
      if String.eqb (Method r) http.MethodGet then getBook w id
      else if String.eqb (Method r) http.MethodPut then updateBook w r id
      else if String.eqb (Method r) http.MethodDelete then deleteBook w id
      else Ret (respondError w http.StatusMethodNotAllowed "method not allowed")
  end.

End Handlers.

(** ** The books table *)

(** A stored row; its key in the table is the [id] column. *)
Record row := mkRow {
  title : string;
  author : string;
  created_at : Time;
  updated_at : Time
}.

(** The database as the handlers reach it: the [books] table (a finite
    map from the primary key [id]), the sequence behind [id SERIAL],
    the reading of the server's clock that [NOW()] gives to the next
    statement, and [failing]: the error with which the next call
    returns instead of running its statement, if any (a lost
    connection, a timeout, an exhausted sequence, a value that the
    server refuses).  The clock and [failing] belong to the
    environment: between two requests they change freely. *)
Record database := mkDB {
  books : gmap Z row;
  books_id_seq : Z;
  now : Time;
  failing : option error
}.

Definition with_books (db : database) (m : gmap Z row) : database :=
  mkDB m (books_id_seq db) (now db) (failing db).

Definition scan_row (kv : Z * row) : Book :=
  mkBook kv.1 (title kv.2) (author kv.2) (created_at kv.2) (updated_at kv.2).

(** The order of [ORDER BY id]. *)
Definition by_id (x y : Z * row) : Prop := x.1 ≤ y.1.

#[global] Instance by_id_dec : RelDecision by_id := λ x y, decide (x.1 ≤ y.1).

(** [SELECT ... FROM books ORDER BY id] *)
Definition select_all (m : gmap Z row) : list Book :=
  scan_row <$> merge_sort by_id (map_to_list m).

Definition unknown_statement : error := ErrOther "pq: syntax error".
Definition unique_violation : error :=
  ErrOther "pq: duplicate key value violates unique constraint".

(** What PostgreSQL answers to each call of the handlers, by the text of
    the statement: the SELECTs read the table, the INSERT draws the id
    from the sequence (which stays advanced if the key is taken) and
    stamps both timestamps with the statement's [NOW()], the UPDATE and
    the DELETE act on the row of the given id.  [QueryRow(...).Scan]
    with no row is [sql.ErrNoRows]. *)
Definition pg (X : Type) (c : dbCall X) (db : database) : X * database :=
  match c in dbCall X return X * database with
  | Query q args =>
      match failing db with
      | Some e => (Err e, db)
      | None =>
          if String.eqb q sqlList then
            (Ok (mkRows (Ok <$> select_all (books db)) None), db)
          else (Err unknown_statement, db)
      end
  | QueryRow_Scan q args =>
      match failing db with
      | Some e => (Err e, db)
      | None =>
          match args with
          | [ArgInt id] =>
              if String.eqb q sqlGet then
                match books db !! id with
                | Some r => (Ok (scan_row (id, r)), db)
                | None => (Err ErrNoRows, db)
                end
              else (Err unknown_statement, db)
          | [ArgText t; ArgText a] =>
              if String.eqb q sqlInsert then
                let id := books_id_seq db in
                let db := mkDB (books db) (id + 1) (now db) (failing db) in
                match books db !! id with
                | Some _ => (Err unique_violation, db)
                | None =>
                    let r := mkRow t a (now db) (now db) in
                    (Ok (scan_row (id, r)), with_books db (<[id := r]> (books db)))
                end
              else (Err unknown_statement, db)
          | [ArgText t; ArgText a; ArgInt id] =>
              if String.eqb q sqlUpdate then
                match books db !! id with
                | Some r =>
                    let r := mkRow t a (created_at r) (now db) in
                    (Ok (scan_row (id, r)), with_books db (<[id := r]> (books db)))
                | None => (Err ErrNoRows, db)
                end
              else (Err unknown_statement, db)
          | _ => (Err unknown_statement, db)
          end
      end
  | Exec q args =>
      match failing db with
      | Some e => (Err e, db)
      | None =>
          match args with
          | [ArgInt id] =>
              if String.eqb q sqlDelete then
                match books db !! id with
                | Some _ => (Ok (mkResult (1, None)), with_books db (delete id (books db)))
                | None => (Ok (mkResult (0, None)), db)
                end
              else (Err unknown_statement, db)
          | _ => (Err unknown_statement, db)
          end
      end
  end.

(** The table right after [ensureSchema] on a new database. *)
Definition empty_db (t : Time) : database := mkDB ∅ 1 t None.

(** The invariant of the table under the handlers' statements: every
    stored id was drawn from the sequence, which starts at 1. *)
Definition consistent (db : database) : Prop :=
  1 ≤ books_id_seq db ∧
  ∀ id r, books db !! id = Some r → 1 ≤ id < books_id_seq db.

(** What the validation of [createBook] and [updateBook] rejects. *)
Definition invalid_body (Decode : string → res bookPayload) (body : string) : Prop :=
  match Decode body with
  | Err _ => True
  | Ok payload => pTitle payload = "" ∨ pAuthor payload = ""
  end.

(** The client's view of [respondInternalError]. *)
Definition internal_error_response : ResponseWriter :=
  mkWriter [("Content-Type", "application/json")] (Some 500)
    [JObject [("error", JString "internal server error")]].

(** A request body format for examples: [title|author]; a body with no
    bar does not decode. *)
Fixpoint split_bar (s : string) : option (string * string) :=
  match s with
  | EmptyString => None
  | String c s' =>
      if Ascii.eqb c "|"%char then Some (EmptyString, s')
      else prod_map (String c) id <$> split_bar s'
  end.

Definition decode_bar (body : string) : res bookPayload :=
  match split_bar body with
  | Some (t, a) => Ok (mkPayload t a)
  | None => Err (ErrOther "unexpected end of JSON input")
  end.

(** ** Drivers and requests of the examples *)

(** A driver whose DELETE goes through but which cannot tell how many
    rows it removed: it reports the zero count together with an error. *)
Definition count_unreported (X : Type) (c : dbCall X) (s : unit) : X * unit :=
  match c in dbCall X return X * unit with
  | Query _ _ => (Err (ErrOther "driver: bad connection"), s)
  | QueryRow_Scan _ _ => (Err (ErrOther "driver: bad connection"), s)
  | Exec _ _ => (Ok (mkResult (0, Some (ErrOther "driver: no RowsAffected available"))), s)
  end.

(** A driver on which the second row of the listing cannot be scanned. *)
Definition second_scan_fails (X : Type) (c : dbCall X) (s : unit) : X * unit :=
  match c in dbCall X return X * unit with
  | Query _ _ =>
      (Ok (mkRows [Ok (mkBook 1 "Dune" "Herbert" 3 3);
                   Err (ErrOther "sql: Scan error on column index 3")] None), s)
  | QueryRow_Scan _ _ => (Err ErrNoRows, s)
  | Exec _ _ => (Ok (mkResult (0, None)), s)
  end.

(** The request bodies of the examples. *)
Definition post_dune : Request := mkRequest "POST" "/books" "Dune|Herbert".
Definition put_dune : Request := mkRequest "PUT" "/books/1" "Dune|F. Herbert".

(** The table after one Create on a new database. *)
Definition one_book : database :=
  (run pg (createBook decode_bar fresh post_dune) (empty_db 7)).1.2.

(** Ascending ids, each id once. *)
Definition ascending (l : list Book) : Prop :=
  StronglySorted (λ a b, ID a < ID b) l.

(** Closes a goal from [H : Some c ∈ [Some c1; ...]] with [c] in no [ci]. *)
Ltac absurd_status H :=
  repeat (apply elem_of_cons in H as [H|H]; [discriminate H|]);
  by apply elem_of_nil in H.

(** ** The two routes, request after request *)

(** The two patterns that [main] registers: ["/books"] for
    [handleBooks] and ["/books/"] for [handleBookByID]. *)
Inductive route := Books | BookByID.

(** One request on a route, with the writer net/http hands over. *)
Definition handle (Decode : string → res bookPayload) (via : route) (r : Request)
    : prog ResponseWriter :=
  match via with
  | Books => handleBooks Decode fresh r
  | BookByID => handleBookByID Decode fresh r
  end.

(** The five statements of the handlers. *)
Definition statements : list string :=
  [sqlList; sqlGet; sqlInsert; sqlUpdate; sqlDelete].

(** No statement, or one statement out of the five. *)
Definition at_most_one (cs : list (string * list sqlArg)) : Prop :=
  cs = [] ∨ ∃ q args, cs = [(q, args)] ∧ q ∈ statements.

(** A request as it reaches the server: the route the mux chose, and
    what the environment is at that moment, the clock of the database
    and the state of the connection. *)
Record arrival := mkArrival {
  via : route;
  request : Request;
  clock : Time;
  connection : option error
}.

Definition arrive (db : database) (a : arrival) : database :=
  mkDB (books db) (books_id_seq db) (clock a) (connection a).

Definition serve1 (Decode : string → res bookPayload) (db : database) (a : arrival)
    : ResponseWriter * database * list string :=
  run pg (handle Decode (via a) (request a)) (arrive db a).

(** The table after a sequence of requests, one after the other. *)
Definition serve (Decode : string → res bookPayload) (db : database)
    (l : list arrival) : database :=
  foldl (λ db a, (serve1 Decode db a).1.2) db l.

(** What one request can do to the database: nothing; insert a row
    under the next id; use up an id on a key that is taken; rewrite the
    row of an id; remove the row of an id. *)
Inductive effect (db : database) : ResponseWriter → database → Prop :=
| effect_none (w : ResponseWriter) :
    Status w ∈ [Some 200; Some 400; Some 404; Some 405; Some 500] →
    effect db w db
| effect_insert (t a : string) :
    t ≠ "" → a ≠ "" → books db !! books_id_seq db = None →
    effect db
      (respondJSON fresh http.StatusCreated
         (VBook (mkBook (books_id_seq db) t a (now db) (now db))))
      (mkDB (<[books_id_seq db := mkRow t a (now db) (now db)]> (books db))
         (books_id_seq db + 1) (now db) (failing db))
| effect_taken (r : row) :
    books db !! books_id_seq db = Some r →
    effect db internal_error_response
      (mkDB (books db) (books_id_seq db + 1) (now db) (failing db))
| effect_update (id : Z) (old : row) (t a : string) :
    t ≠ "" → a ≠ "" → books db !! id = Some old →
    effect db
      (respondJSON fresh http.StatusOK (VBook (mkBook id t a (created_at old) (now db))))
      (with_books db (<[id := mkRow t a (created_at old) (now db)]> (books db)))
| effect_delete (id : Z) (old : row) :
    books db !! id = Some old →
    effect db (WriteHeader fresh http.StatusNoContent)
      (with_books db (delete id (books db))).

(** The rows all have a title and an author. *)
Definition titled (db : database) : Prop :=
  ∀ id r, books db !! id = Some r → title r ≠ "" ∧ author r ≠ "".

(** No row was updated before it was created, or after the present
    reading of the clock. *)
Definition stamped (db : database) : Prop :=
  ∀ id r, books db !! id = Some r → created_at r ≤ updated_at r ≤ now db.

(** The clock readings of the requests [l] never step back, from [t] on. *)
Fixpoint forward (t : Time) (l : list arrival) : Prop :=
  match l with
  | [] => True
  | a :: l => t ≤ clock a ∧ forward (clock a) l
  end.

(** Three requests of the examples: a Create, an Update of the book it
    made, a Delete of it, at clock readings 3, 5 and 5. *)
Definition three_requests : list arrival :=
  [mkArrival Books post_dune 3 None;
   mkArrival BookByID put_dune 5 None;
   mkArrival BookByID (mkRequest "DELETE" "/books/1" "") 5 None].

(** The slice that the loop of [listBooks] ends with after the rows
    [l]: the nil slice when there was none. *)
Definition as_slice (l : list Book) : slice Book :=
  match l with
  | [] => None
  | _ => Some l
  end.

(** A driver on which the listing breaks off after its first row:
    [rows.Next()] returns false and [rows.Err()] holds the cause. *)
Definition breaks_off (X : Type) (c : dbCall X) (s : unit) : X * unit :=
  match c in dbCall X return X * unit with
  | Query _ _ =>
      (Ok (mkRows [Ok (mkBook 1 "Dune" "Herbert" 3 3)]
             (Some (ErrOther "driver: bad connection"))), s)
  | QueryRow_Scan _ _ => (Err ErrNoRows, s)
  | Exec _ _ => (Ok (mkResult (0, None)), s)
  end.

(** ** Startup: the environment, the schema, main *)









(** The call returns [e]. *)
Definition refuse (e : error) (X : Type) (c : dbCall X) : X :=
  match c in dbCall X return X with
  | Query _ _ => Err e
  | QueryRow_Scan _ _ => Err e
  | Exec _ _ => Err e
  end.











(** ** The server behind the connection, more closely

    [pg] answers as if the [id] column held any integer and as if a
    call that returns an error had not run.  [postgres] drops both
    assumptions: the column is the [integer] (int4) of [id SERIAL], so
    the server refuses an id argument outside the int4 range and a
    sequence value beyond it; and the connection can break before the
    statement reaches the server or after the server has run it. *)

Definition int4 (n : Z) : bool := (- 2 ^ 31 <=? n) && (n <? 2 ^ 31).

Definition out_of_range : error :=
  ErrOther "pq: value is out of range for type integer".

Definition sequence_exhausted : error :=
  ErrOther "pq: nextval: reached maximum value of sequence books_id_seq (2147483647)".

(** The arguments of a call, and the integers among them: in the
    handlers' statements every integer argument is an id. *)
Definition args_of (X : Type) (c : dbCall X) : list sqlArg :=
  match c with
  | Query _ args => args
  | QueryRow_Scan _ args => args
  | Exec _ args => args
  end.

Definition ints (args : list sqlArg) : list Z :=
  omap (λ a, match a with ArgInt n => Some n | ArgText _ => None end) args.

Definition is_insert (X : Type) (c : dbCall X) : bool :=
  match c with
  | QueryRow_Scan q _ => String.eqb q sqlInsert
  | _ => false
  end.

(** The server runs the call. *)
Definition postgres_runs (X : Type) (c : dbCall X) (db : database) : X * database :=
  let db := mkDB (books db) (books_id_seq db) (now db) None in
  if negb (forallb int4 (ints (args_of X c))) then (refuse out_of_range X c, db)
  else if is_insert X c && (2 ^ 31 - 1 <? books_id_seq db) then
    (refuse sequence_exhausted X c, db)
  else pg X c db.

(** The connection during one call: it works; or it breaks before the
    statement reaches the server; or it breaks after the server ran the
    statement, and the reply is lost.  Either way a broken connection
    shows as an error of the driver, with its text. *)
Inductive link :=
| Up
| DownBefore (text : string)
| DownAfter (text : string).

Definition postgres (l : link) (X : Type) (c : dbCall X) (db : database)
    : X * database :=
  match l with
  | Up => postgres_runs X c db
  | DownBefore text => (refuse (ErrOther text) X c, db)
  | DownAfter text => (refuse (ErrOther text) X c, (postgres_runs X c db).2)
  end.

(** [returns p a log]: the program [p] makes no call; it logs [log]
    and returns [a]. *)
Inductive returns {A : Type} : prog A → A → list string → Prop :=
| returns_Ret (a : A) : returns (Ret a) a []
| returns_Printf (line : string) (p : prog A) (a : A) (log : list string) :
    returns p a log → returns (Printf line p) a (line :: log).

(** The two shapes of a request: refused before any call, or one call
    and then no other; and when that call returns a driver error, the
    answer is the 500 envelope. *)
Inductive shape : prog ResponseWriter → Prop :=
| shape_refused (code : Z) (msg : string) :
    code ∈ [http.StatusBadRequest; http.StatusMethodNotAllowed] →
    shape (Ret (respondError fresh code msg))
| shape_call (X : Type) (c : dbCall X) (k : X → prog ResponseWriter) :
    (∀ x, ∃ w log, returns (k x) w log) →
    (∀ text, returns (k (refuse (ErrOther text) X c)) internal_error_response
               ["internal error: " +:+ text]) →
    shape (Call c k).

(** ** The handlers with the encoder as it is

    [respondJSON] above takes the write of the body to succeed.  Here
    it is as in the source: [Encode] can return an error (the value
    cannot be marshalled, or the write to the client fails), no
    complete document is then added to the body, and [respondJSON]
    logs the error.  The
    status line is already out at that point.  The handlers are the
    same functions over this [respondJSON]. *)
Module wire.

Section Encoder.

Variable Decode : string → res bookPayload.

(** What [json.NewEncoder(w).Encode(v)] returns for [v]: nil, or the
    error of the marshalling or of the write. *)
Variable Encode_err : value → option error.

Definition Encode (w : ResponseWriter) (v : value) : ResponseWriter * option error :=
  match Encode_err v with
  | Some err => (w, Some err)
  | None =>
      let w := WriteHeader w 200 in
      (mkWriter (Header w) (Status w) (Body w ++ [Marshal v]), None)
  end.

Definition respondJSON (w : ResponseWriter) (status : Z) (v : value)
    : prog ResponseWriter :=
  let w := WriteHeader (Header_Set w "Content-Type" "application/json") status in
  let '(w, err) := Encode w v in
  match err with
  | Some err => Printf ("write response: " +:+ Error err) (Ret w)
  | None => Ret w
  end.

Definition respondError (w : ResponseWriter) (status : Z) (msg : string)
    : prog ResponseWriter :=
  respondJSON w status (VMap [("error", msg)]).

Definition respondInternalError (w : ResponseWriter) (err : error) : prog ResponseWriter :=
  Printf ("internal error: " +:+ Error err)
    (respondError w http.StatusInternalServerError "internal server error").

Fixpoint listBooks_loop (w : ResponseWriter) (rs : list (res Book))
    (books : slice Book) : prog ResponseWriter :=
  match rs with
  | [] => respondJSON w http.StatusOK (VBooks books)
  | Err err :: _ => respondInternalError w err
  | Ok b :: rs => listBooks_loop w rs (append books b)
  end.

Definition listBooks (w : ResponseWriter) : prog ResponseWriter :=
  Call (Query sqlList []) (λ r,
    match r with
    | Err err => respondInternalError w err
    | Ok rows => listBooks_loop w (scans rows) None
    end).

Definition getBook (w : ResponseWriter) (id : Z) : prog ResponseWriter :=
  Call (QueryRow_Scan sqlGet [ArgInt id]) (λ r,
    match r with
    | Err err =>
        if is_ErrNoRows err then respondError w http.StatusNotFound "book not found"
        else respondInternalError w err
    | Ok b => respondJSON w http.StatusOK (VBook b)
    end).

Definition createBook (w : ResponseWriter) (r : Request) : prog ResponseWriter :=
  match Decode (ReqBody r) with
  | Err _ => respondError w http.StatusBadRequest "invalid JSON"
  | Ok payload =>
      if String.eqb (pTitle payload) "" || String.eqb (pAuthor payload) "" then
        respondError w http.StatusBadRequest "title and author are required"
      else
        Call (QueryRow_Scan sqlInsert [ArgText (pTitle payload); ArgText (pAuthor payload)])
          (λ r,
            match r with
            | Err err => respondInternalError w err
            | Ok b => respondJSON w http.StatusCreated (VBook b)
            end)
  end.

Definition updateBook (w : ResponseWriter) (r : Request) (id : Z) : prog ResponseWriter :=
  match Decode (ReqBody r) with
  | Err _ => respondError w http.StatusBadRequest "invalid JSON"
  | Ok payload =>
      if String.eqb (pTitle payload) "" || String.eqb (pAuthor payload) "" then
        respondError w http.StatusBadRequest "title and author are required"
      else
        Call (QueryRow_Scan sqlUpdate
                [ArgText (pTitle payload); ArgText (pAuthor payload); ArgInt id])
          (λ r,
            match r with
            | Err err =>
                if is_ErrNoRows err then
                  respondError w http.StatusNotFound "book not found"
                else respondInternalError w err
            | Ok b => respondJSON w http.StatusOK (VBook b)
            end)
  end.

Definition deleteBook (w : ResponseWriter) (id : Z) : prog ResponseWriter :=
  Call (Exec sqlDelete [ArgInt id]) (λ r,
    match r with
    | Err err => respondInternalError w err
    | Ok res =>
        let '(affected, _) := RowsAffected res in
        if affected =? 0 then respondError w http.StatusNotFound "book not found"
        else Ret (WriteHeader w http.StatusNoContent)
    end).

Definition handleBooks (w : ResponseWriter) (r : Request) : prog ResponseWriter :=
  if String.eqb (Method r) http.MethodGet then listBooks w
  else if String.eqb (Method r) http.MethodPost then createBook w r
  else respondError w http.StatusMethodNotAllowed "method not allowed".

Definition handleBookByID (w : ResponseWriter) (r : Request) : prog ResponseWriter :=
  let idStr := strings.TrimPrefix (URL_Path r) "/books/" in
  let '(id, err) := strconv.ParseInt idStr in
  match err with
  | Some _ => respondError w http.StatusBadRequest "invalid id"
  | None =>
      if String.eqb (Method r) http.MethodGet then getBook w id
      else if String.eqb (Method r) http.MethodPut then updateBook w r id
      else if String.eqb (Method r) http.MethodDelete then deleteBook w id
      else respondError w http.StatusMethodNotAllowed "method not allowed"
  end.

Definition handle (via : route) (r : Request) : prog ResponseWriter :=
  match via with
  | Books => handleBooks fresh r
  | BookByID => handleBookByID fresh r
  end.

(** What a handler meant to send: a status, the value for the body, and
    the lines logged before the body is written. *)
Inductive intent : Z → value → list string → Prop :=
| intent_books (bs : slice Book) : intent http.StatusOK (VBooks bs) []
| intent_book (b : Book) : intent http.StatusOK (VBook b) []
| intent_created (b : Book) : intent http.StatusCreated (VBook b) []
| intent_refused (code : Z) (msg : string) :
    code ∈ [http.StatusBadRequest; http.StatusNotFound; http.StatusMethodNotAllowed] →
    intent code (VMap [("error", msg)]) []
| intent_internal (e : error) :
    intent http.StatusInternalServerError (VMap [("error", "internal server error")])
      ["internal error: " +:+ Error e].

(** The writer once the content type and the status are out. *)
Definition head (code : Z) : ResponseWriter :=
  WriteHeader (Header_Set fresh "Content-Type" "application/json") code.

(** What a client and the server log see of one request: the body was
    written; or it could not be, and that is logged; or the 204 of a
    Delete, which has no body. *)
Inductive answer : ResponseWriter → list string → Prop :=
| answer_written (code : Z) (v : value) (log : list string) :
    intent code v log → Encode_err v = None →
    answer (mkWriter (Header (head code)) (Status (head code)) [Marshal v]) log
| answer_lost (code : Z) (v : value) (log : list string) (err : error) :
    intent code v log → Encode_err v = Some err →
    answer (head code) (log ++ ["write response: " +:+ Error err])
| answer_no_content :
    answer (WriteHeader fresh http.StatusNoContent) [].

End Encoder.

End wire.

(** Two handler programs that a driver cannot tell apart: the same
    result, final state and log, and the same statements sent. *)
Definition same {S : Type} (d : ∀ X, dbCall X → S → X * S)
    (p q : prog ResponseWriter) : Prop :=
  ∀ s, run d p s = run d q s ∧ calls d p s = calls d q s.

(** Two runs with the same status line and the same final state. *)
Definition alike {S : Type} (x y : ResponseWriter * S * list string) : Prop :=
  Status x.1.1 = Status y.1.1 ∧ x.1.2 = y.1.2.

(** An encoder that cannot marshal a book (a timestamp whose year has
    five digits), and one that never fails. *)
Definition no_books (v : value) : option error :=
  match v with
  | VBook _ => Some (ErrOther "json: error calling MarshalJSON for type time.Time")
  | _ => None
  end.

Definition encodes (v : value) : option error := None.

(** A driver whose only row is a book of the year 10000. *)
Definition far_future (X : Type) (c : dbCall X) (s : unit) : X * unit :=
  match c in dbCall X return X * unit with
  | Query _ _ => (Err (ErrOther "driver: bad connection"), s)
  | QueryRow_Scan _ _ => (Ok (mkBook 1 "Dune" "Herbert" 253402300800 253402300800), s)
  | Exec _ _ => (Ok (mkResult (0, None)), s)
  end.

(** ** strconv.ParseInt and base-10 integers *)

Lemma digit_range (c : ascii) (d : Z) : digit c = Some d → 0 ≤ d ≤ 9.
Proof.
  unfold digit. cbn zeta.
  destruct (48 <=? _) eqn:H1; destruct (_ <=? 57) eqn:H2; cbn; try done.
  intros [= <-]. lia.
Qed.

Lemma digits_value_ge (s : string) (n v : Z) :
  0 ≤ n → digits_value s n = Some v → n ≤ v.
Proof.
  revert n. induction s as [|c s IH]; intros n Hn; cbn.
  - intros [= <-]. lia.
  - destruct (digit c) as [d|] eqn:Hd; [|done].
    apply digit_range in Hd. intros Hv. apply IH in Hv; lia.
Qed.

Lemma two_64 : 2 ^ 64 = 18446744073709551616.
Proof. reflexivity. Qed.

Lemma ParseUint_loop_spec (s : string) (n : Z) :
  0 ≤ n < 2 ^ 64 →
  match digits_value s n with
  | Some v =>
      strconv.ParseUint_loop s n
      = if v <? 2 ^ 64 then (v, None) else (strconv.maxUint64, Some strconv.ErrRange)
  | None =>
      (strconv.ParseUint_loop s n).2 = Some strconv.ErrSyntax ∨
      strconv.ParseUint_loop s n = (strconv.maxUint64, Some strconv.ErrRange)
  end.
Proof.
  revert n. induction s as [|c s IH]; intros n Hn; cbn [digits_value strconv.ParseUint_loop].
  - destruct (Z.ltb_spec n (2 ^ 64)); [done|lia].
  - unfold digit. cbn zeta.
    destruct ((48 <=? Z.of_N (N_of_ascii c)) && (Z.of_N (N_of_ascii c) <=? 57)) eqn:Hc;
      [|by left].
    apply andb_true_iff in Hc as [Hlo Hhi].
    apply Z.leb_le in Hlo, Hhi.
    set (d := Z.of_N (N_of_ascii c) - 48) in *.
    assert (Hcut : strconv.maxUint64 / 10 + 1 = 1844674407370955162) by reflexivity.
    assert (Hmax : strconv.maxUint64 = 18446744073709551615) by reflexivity.
    rewrite Hcut, Hmax, two_64 in *.
    destruct (Z.leb_spec 1844674407370955162 n) as [Hbig|Hsmall].
    + destruct (digits_value s (10 * n + d)) as [v|] eqn:Hv; [|by right].
      apply digits_value_ge in Hv; [|lia].
      destruct (Z.ltb_spec v 18446744073709551616); [lia|done].
    + destruct (Z_lt_dec (n * 10 + d) 18446744073709551616) as [Hfit|Hover].
      * rewrite (Z.mod_small (n * 10 + d)) by lia.
        destruct (Z.ltb_spec (n * 10 + d) (n * 10)); [lia|].
        destruct (Z.ltb_spec 18446744073709551615 (n * 10 + d)); [lia|]. cbn [orb].
        replace (10 * n + d) with (n * 10 + d) by lia.
        apply IH. lia.
      * assert (Hmod : (n * 10 + d) mod 18446744073709551616
                       = n * 10 + d - 18446744073709551616).
        { symmetry. apply (Z.mod_unique _ _ 1); lia. }
        rewrite Hmod.
        destruct (Z.ltb_spec (n * 10 + d - 18446744073709551616) (n * 10)); [|lia].
        cbn [orb].
        destruct (digits_value s (10 * n + d)) as [v|] eqn:Hv; [|by right].
        apply digits_value_ge in Hv; [|lia].
        destruct (Z.ltb_spec v 18446744073709551616); [lia|done].
Qed.

Lemma unsigned_decimal_nonneg (s : string) (v : Z) :
  unsigned_decimal s = Some v → 0 ≤ v.
Proof. destruct s; [done|]. by apply digits_value_ge. Qed.

Lemma ParseUint_spec (s : string) :
  match unsigned_decimal s with
  | Some v =>
      strconv.ParseUint s
      = if v <? 2 ^ 64 then (v, None) else (strconv.maxUint64, Some strconv.ErrRange)
  | None =>
      (strconv.ParseUint s).2 = Some strconv.ErrSyntax ∨
      strconv.ParseUint s = (strconv.maxUint64, Some strconv.ErrRange)
  end.
Proof. destruct s as [|c s]; [by left|]. by apply ParseUint_loop_spec. Qed.

(** The part of [ParseInt] after the sign. *)
Lemma ParseInt_after_sign (neg : bool) (s1 : string) (z : Z) :
  (let '(un, err) := strconv.ParseUint s1 in
   match err with
   | Some strconv.ErrSyntax => (0, Some strconv.ErrSyntax)
   | _ =>
       let cutoff := 2 ^ 63 in
       if negb neg && (cutoff <=? un) then (cutoff - 1, Some strconv.ErrRange)
       else if neg && (cutoff <? un) then (- cutoff, Some strconv.ErrRange)
       else (if neg then - un else un, None)
   end) = (z, None)
  ↔ ∃ v, unsigned_decimal s1 = Some v ∧ z = (if neg then - v else v) ∧
         - 2 ^ 63 ≤ z < 2 ^ 63.
Proof.
  pose proof (ParseUint_spec s1) as Hspec.
  assert (H63 : 2 ^ 63 = 9223372036854775808) by reflexivity.
  assert (Hmax : strconv.maxUint64 = 18446744073709551615) by reflexivity.
  destruct (unsigned_decimal s1) as [v|] eqn:Hv.
  - apply unsigned_decimal_nonneg in Hv as Hpos. rewrite Hspec, two_64, H63, Hmax.
    destruct (Z.ltb_spec v 18446744073709551616) as [Hfit|Hover]; cbn zeta.
    + destruct neg; cbn [negb andb];
        [destruct (Z.ltb_spec 9223372036854775808 v)
        |destruct (Z.leb_spec 9223372036854775808 v)];
        (split; [intros [= <-]; try (exists v; split; [done|lia])
                |intros (v' & [= <-] & -> & Hr); first [lia | done]]).
    + destruct neg; cbn [negb andb];
        (split; [intros [=]|intros (v' & [= <-] & -> & Hr); lia]).
  - split; [|by intros (v & [=] & _)].
    destruct Hspec as [Hsyn|Hrange].
    + destruct (strconv.ParseUint s1) as [un err]. cbn in Hsyn. by subst err.
    + rewrite Hrange, H63, Hmax. by destruct neg.
Qed.

(** [ParseInt] accepts exactly the strings that denote an integer of the
    [int64] range in base 10, and gives that integer. *)
Theorem ParseInt_decimal (s : string) (z : Z) :
  strconv.ParseInt s = (z, None) ↔ decimal s = Some z ∧ - 2 ^ 63 ≤ z < 2 ^ 63.
Proof.
  destruct s as [|c rest]; [by split; [|intros [[=] _]]|].
  unfold strconv.ParseInt, decimal.
  destruct (Ascii.eqb_spec c "+"%char) as [->|Hplus]; cbn [Ascii.eqb Bool.eqb].
  - rewrite (ParseInt_after_sign false rest z). split.
    + by intros (v & -> & -> & Hr).
    + intros [Hv Hr]. by exists z.
  - destruct (Ascii.eqb_spec c "-"%char) as [->|Hminus].
    + rewrite (ParseInt_after_sign true rest z). split.
      * by intros (v & -> & -> & Hr).
      * intros [Hv Hr]. destruct (unsigned_decimal rest) as [v|]; [|done].
        injection Hv as <-. by exists v.
    + rewrite (ParseInt_after_sign false (String c rest) z). split.
      * by intros (v & -> & -> & Hr).
      * intros [Hv Hr]. by exists z.
Qed.

(** The segments that the per-id handler rejects are those that do not
    write an integer of the [int64] range in base 10. *)
Corollary ParseInt_error_iff (s : string) :
  (strconv.ParseInt s).2 ≠ None ↔ ¬ ∃ z, decimal s = Some z ∧ - 2 ^ 63 ≤ z < 2 ^ 63.
Proof.
  split.
  - intros Herr (z & Hz). apply ParseInt_decimal in Hz. by rewrite Hz in Herr.
  - intros Hno Hnone. apply Hno. exists (strconv.ParseInt s).1.
    apply ParseInt_decimal. destruct (strconv.ParseInt s) as [z err].
    cbn in *. by destruct err.
Qed.

(** ** The router and the id segment *)

Lemma TrimPrefix_books (seg : string) :
  strings.TrimPrefix ("/books/" +:+ seg) "/books/" = seg.
Proof. reflexivity. Qed.

Lemma handleBookByID_invalid_id Decode w method seg body e :
  (strconv.ParseInt seg).2 = Some e →
  handleBookByID Decode w (mkRequest method ("/books/" +:+ seg) body)
  = Ret (respondError w http.StatusBadRequest "invalid id").
Proof.
  intros He. unfold handleBookByID. cbn [URL_Path].
  rewrite TrimPrefix_books.
  destruct (strconv.ParseInt seg) as [id err]. cbn in He. by subst err.
Qed.

Lemma handleBookByID_parsed Decode w method seg body id :
  strconv.ParseInt seg = (id, None) →
  handleBookByID Decode w (mkRequest method ("/books/" +:+ seg) body)
  = if String.eqb method http.MethodGet then getBook w id
    else if String.eqb method http.MethodPut then
      updateBook Decode w (mkRequest method ("/books/" +:+ seg) body) id
    else if String.eqb method http.MethodDelete then deleteBook w id
    else Ret (respondError w http.StatusMethodNotAllowed "method not allowed").
Proof.
  intros Hp. unfold handleBookByID. cbn [URL_Path Method].
  by rewrite TrimPrefix_books, Hp.
Qed.

Lemma status_respondError (status : Z) (msg : string) :
  Status (respondError fresh status msg) = Some status.
Proof. reflexivity. Qed.

Lemma status_respondJSON (status : Z) (v : value) :
  Status (respondJSON fresh status v) = Some status.
Proof. reflexivity. Qed.

(** C6: an id segment that [ParseInt] rejects is answered 400 by the
    per-id handler, for every method and body, and the handler is then a
    bare return: under every driver it sends no statement and leaves the
    connection state as it was. *)
Theorem C6_invalid_id_is_400_without_database
    (Decode : string → res bookPayload) (method seg body : string)
    (e : strconv.NumError) :
  (strconv.ParseInt seg).2 = Some e →
  let p := handleBookByID Decode fresh (mkRequest method ("/books/" +:+ seg) body) in
  p = Ret (respondError fresh http.StatusBadRequest "invalid id") ∧
  Status (respondError fresh http.StatusBadRequest "invalid id") = Some 400 ∧
  ∀ (S : Type) (d : ∀ X, dbCall X → S → X * S) (s : S),
    calls d p s = [] ∧
    run d p s = (respondError fresh http.StatusBadRequest "invalid id", s, []).
Proof.
  intros He p. subst p.
  rewrite (handleBookByID_invalid_id _ _ _ _ _ _ He).
  split; [done|]. split; [done|]. by intros S d s.
Qed.

Lemma C6_witness :
  let p := handleBookByID decode_bar fresh (mkRequest "GET" "/books/abc" "") in
  p = Ret (respondError fresh http.StatusBadRequest "invalid id") ∧
  Status (respondError fresh http.StatusBadRequest "invalid id") = Some 400 ∧
  ∀ (S : Type) (d : ∀ X, dbCall X → S → X * S) (s : S),
    calls d p s = [] ∧
    run d p s = (respondError fresh http.StatusBadRequest "invalid id", s, []).
Proof.
  apply (C6_invalid_id_is_400_without_database decode_bar "GET" "abc" ""
           strconv.ErrSyntax).
  reflexivity.
Defined.

(** ** Which statuses a handler can send, under any driver *)

Section AnyDriver.

Context {S : Type} (d : ∀ X, dbCall X → S → X * S).

Lemma run_respondInternalError (w : ResponseWriter) (e : error) (s : S) :
  run d (respondInternalError w e) s
  = (respondError w http.StatusInternalServerError "internal server error", s,
     ["internal error: " +:+ Error e]).
Proof. reflexivity. Qed.

Lemma getBook_status (id : Z) (s : S) :
  Status (run d (getBook fresh id) s).1.1 ∈ [Some 200; Some 404; Some 500].
Proof.
  cbn. destruct (d _ _ s) as [[b|[|text]] s']; cbn; set_solver.
Qed.

Lemma deleteBook_status (id : Z) (s : S) :
  Status (run d (deleteBook fresh id) s).1.1 ∈ [Some 204; Some 404; Some 500].
Proof.
  cbn. destruct (d _ _ s) as [[[[n oe]]|e] s']; cbn; [|set_solver].
  destruct (n =? 0); cbn; set_solver.
Qed.

Lemma updateBook_status Decode (r : Request) (id : Z) (s : S) :
  Status (run d (updateBook Decode fresh r id) s).1.1
  ∈ [Some 200; Some 400; Some 404; Some 500].
Proof.
  unfold updateBook. destruct (Decode _) as [payload|e]; [|cbn; set_solver].
  destruct (_ || _); [cbn; set_solver|].
  cbn. destruct (d _ _ s) as [[b|[|text]] s']; cbn; set_solver.
Qed.

End AnyDriver.

(** C8: in the per-id handler the id is parsed before the method is
    looked at.  With an id segment that does not parse, every method,
    listed or not, gets the 400 of the parse failure; and whatever the
    driver does, a 405 is sent only for a segment that parsed (and a
    method other than GET, PUT and DELETE), in which case it is sent. *)
Theorem C8_id_parsing_precedes_method_dispatch
    (Decode : string → res bookPayload) (method seg body : string) :
  let r := mkRequest method ("/books/" +:+ seg) body in
  ((strconv.ParseInt seg).2 ≠ None →
   handleBookByID Decode fresh r = Ret (respondError fresh http.StatusBadRequest "invalid id"))
  ∧ (∀ (S : Type) (d : ∀ X, dbCall X → S → X * S) (s : S),
       Status (run d (handleBookByID Decode fresh r) s).1.1 = Some http.StatusMethodNotAllowed →
       (strconv.ParseInt seg).2 = None ∧
       method ∉ [http.MethodGet; http.MethodPut; http.MethodDelete])
  ∧ ((strconv.ParseInt seg).2 = None →
     method ∉ [http.MethodGet; http.MethodPut; http.MethodDelete] →
     handleBookByID Decode fresh r
     = Ret (respondError fresh http.StatusMethodNotAllowed "method not allowed")).
Proof.
  intros r. subst r. split; [|split].
  - intros Hne. destruct (strconv.ParseInt seg).2 as [e|] eqn:He; [|done].
    by apply handleBookByID_invalid_id with e.
  - intros S d s.
    destruct (strconv.ParseInt seg) as [id [e|]] eqn:Hp.
    + rewrite (handleBookByID_invalid_id _ _ _ _ _ e) by (by rewrite Hp).
      cbn. discriminate.
    + rewrite (handleBookByID_parsed _ _ _ _ _ _ Hp). intros H405.
      split; [done|]. intros Hm.
      apply list_elem_of_In in Hm. cbn in Hm.
      destruct Hm as [<-|[<-|[<-|[]]]].
      * pose proof (getBook_status d id s) as Hs.
        change (Status (run d (getBook fresh id) s).1.1 = Some 405) in H405.
        rewrite H405 in Hs. absurd_status Hs.
      * pose proof (updateBook_status d Decode
                      (mkRequest "PUT" ("/books/" +:+ seg) body) id s) as Hs.
        change (Status (run d (updateBook Decode fresh
                  (mkRequest "PUT" ("/books/" +:+ seg) body) id) s).1.1 = Some 405) in H405.
        rewrite H405 in Hs. absurd_status Hs.
      * pose proof (deleteBook_status d id s) as Hs.
        change (Status (run d (deleteBook fresh id) s).1.1 = Some 405) in H405.
        rewrite H405 in Hs. absurd_status Hs.
  - intros Hnone Hm. destruct (strconv.ParseInt seg) as [id err] eqn:Hp.
    cbn in Hnone. subst err.
    rewrite (handleBookByID_parsed _ _ _ _ _ _ Hp).
    destruct (String.eqb_spec method http.MethodGet) as [->|_];
      [exfalso; apply Hm, list_elem_of_In; cbn; tauto|].
    destruct (String.eqb_spec method http.MethodPut) as [->|_];
      [exfalso; apply Hm, list_elem_of_In; cbn; tauto|].
    destruct (String.eqb_spec method http.MethodDelete) as [->|_];
      [exfalso; apply Hm, list_elem_of_In; cbn; tauto|].
    done.
Qed.

Lemma C8_witness :
  handleBookByID decode_bar fresh (mkRequest "PATCH" "/books/abc" "")
  = Ret (respondError fresh http.StatusBadRequest "invalid id")
  ∧ handleBookByID decode_bar fresh (mkRequest "PATCH" "/books/7" "")
    = Ret (respondError fresh http.StatusMethodNotAllowed "method not allowed").
Proof.
  split.
  - apply (C8_id_parsing_precedes_method_dispatch decode_bar "PATCH" "abc" "").
    vm_compute. discriminate.
  - apply (C8_id_parsing_precedes_method_dispatch decode_bar "PATCH" "7" "").
    + reflexivity.
    + apply (bool_decide_unpack _). vm_compute. exact I.
Defined.

(** ** Validation of the request body *)

Lemma validation_rejects Decode (body : string) :
  invalid_body Decode body →
  match Decode body with
  | Err _ => True
  | Ok payload => String.eqb (pTitle payload) "" || String.eqb (pAuthor payload) "" = true
  end.
Proof.
  unfold invalid_body. destruct (Decode body) as [payload|e]; [|done].
  intros [->| ->]; cbn; [done|]. by rewrite orb_true_r.
Qed.

(** C2: a Create or Update whose body does not decode, or decodes with
    an empty title or an empty author, is answered 400 with one of the
    two messages of the validation, and the handler is then a bare
    return: under every driver no statement is sent and the connection
    state is untouched; on the books table, the rows are the same. *)
Theorem C2_invalid_body_is_400_without_database
    (Decode : string → res bookPayload) (r : Request) :
  invalid_body Decode (ReqBody r) →
  ∃ msg : string,
    msg ∈ ["invalid JSON"; "title and author are required"] ∧
    Status (respondError fresh http.StatusBadRequest msg) = Some 400 ∧
    Body (respondError fresh http.StatusBadRequest msg) = [JObject [("error", JString msg)]] ∧
    createBook Decode fresh r = Ret (respondError fresh http.StatusBadRequest msg) ∧
    (∀ id, updateBook Decode fresh r id = Ret (respondError fresh http.StatusBadRequest msg)) ∧
    (∀ (S : Type) (d : ∀ X, dbCall X → S → X * S) (s : S) (id : Z),
       calls d (createBook Decode fresh r) s = [] ∧
       calls d (updateBook Decode fresh r id) s = [] ∧
       (run d (createBook Decode fresh r) s).1.2 = s ∧
       (run d (updateBook Decode fresh r id) s).1.2 = s) ∧
    (∀ (db : database) (id : Z),
       books (run pg (createBook Decode fresh r) db).1.2 = books db ∧
       books (run pg (updateBook Decode fresh r id) db).1.2 = books db).
Proof.
  intros Hinv. apply validation_rejects in Hinv.
  unfold createBook, updateBook.
  destruct (Decode (ReqBody r)) as [payload|e].
  - rewrite Hinv. exists "title and author are required".
    split; [apply list_elem_of_In; cbn; tauto|]. by repeat split.
  - exists "invalid JSON".
    split; [apply list_elem_of_In; cbn; tauto|]. by repeat split.
Qed.

Lemma C2_witness :
  ∃ msg : string,
    msg ∈ ["invalid JSON"; "title and author are required"] ∧
    Status (respondError fresh http.StatusBadRequest msg) = Some 400 ∧
    Body (respondError fresh http.StatusBadRequest msg) = [JObject [("error", JString msg)]] ∧
    createBook decode_bar fresh (mkRequest "POST" "/books" "|X")
    = Ret (respondError fresh http.StatusBadRequest msg) ∧
    (∀ id, updateBook decode_bar fresh (mkRequest "POST" "/books" "|X") id
           = Ret (respondError fresh http.StatusBadRequest msg)) ∧
    (∀ (S : Type) (d : ∀ X, dbCall X → S → X * S) (s : S) (id : Z),
       calls d (createBook decode_bar fresh (mkRequest "POST" "/books" "|X")) s = [] ∧
       calls d (updateBook decode_bar fresh (mkRequest "POST" "/books" "|X") id) s = [] ∧
       (run d (createBook decode_bar fresh (mkRequest "POST" "/books" "|X")) s).1.2 = s ∧
       (run d (updateBook decode_bar fresh (mkRequest "POST" "/books" "|X") id) s).1.2 = s) ∧
    (∀ (db : database) (id : Z),
       books (run pg (createBook decode_bar fresh (mkRequest "POST" "/books" "|X")) db).1.2
       = books db ∧
       books (run pg (updateBook decode_bar fresh (mkRequest "POST" "/books" "|X") id) db).1.2
       = books db).
Proof.
  apply (C2_invalid_body_is_400_without_database decode_bar
           (mkRequest "POST" "/books" "|X")).
  left. reflexivity.
Defined.

(** ** The row loop of List *)

Lemma foldl_append_Some (acc bs : list Book) :
  foldl append (Some acc) bs = Some (acc ++ bs).
Proof.
  revert acc. induction bs as [|b bs IH]; intros acc; cbn.
  - by rewrite app_nil_r.
  - by rewrite IH, <- app_assoc.
Qed.

(** What the loop has collected after scanning all of [bs]: the nil
    slice it started from when there was no row, the rows otherwise. *)
Lemma foldl_append_None (bs : list Book) :
  foldl append None bs = match bs with [] => None | _ => Some bs end.
Proof. destruct bs as [|b bs]; [done|]. cbn. by rewrite foldl_append_Some. Qed.

Lemma listBooks_loop_scanned (w : ResponseWriter) (bs : list Book) (acc : slice Book) :
  listBooks_loop w (Ok <$> bs) acc = Ret (respondJSON w http.StatusOK (VBooks (foldl append acc bs))).
Proof. revert acc. induction bs as [|b bs IH]; intros acc; cbn; [done|apply IH]. Qed.

Lemma listBooks_loop_scan_error (w : ResponseWriter) (bs : list Book) (e : error)
    (rest : list (res Book)) (acc : slice Book) :
  listBooks_loop w ((Ok <$> bs) ++ Err e :: rest) acc = respondInternalError w e.
Proof. revert acc. induction bs as [|b bs IH]; intros acc; cbn; [done|apply IH]. Qed.

(** [listBooks] never reads [rows.Err()]: whatever made the iteration
    stop after the rows [bs], the answer is the 200 of the listing of
    [bs]. *)
Lemma listBooks_ignores_rows_Err {S : Type} (d : ∀ X, dbCall X → S → X * S)
    (s s' : S) (bs : list Book) (stopped : option error) :
  d _ (Query sqlList []) s = (Ok (mkRows (Ok <$> bs) stopped), s') →
  run d (listBooks fresh) s
  = (respondJSON fresh http.StatusOK (VBooks (foldl append None bs)), s', []).
Proof. intros Hd. cbn. rewrite Hd. cbn. by rewrite listBooks_loop_scanned. Qed.

(** ** Delete and the affected-row count *)

(** The handler looks at the count only: the error that comes with it
    plays no part in the response, and is not logged. *)
Lemma deleteBook_count {S : Type} (d : ∀ X, dbCall X → S → X * S) (s s' : S)
    (id : Z) (res : Result) (n : Z) (oe : option error) :
  d _ (Exec sqlDelete [ArgInt id]) s = (Ok res, s') →
  RowsAffected res = (n, oe) →
  run d (deleteBook fresh id) s
  = (if n =? 0 then respondError fresh http.StatusNotFound "book not found"
     else WriteHeader fresh http.StatusNoContent, s', []).
Proof.
  intros Hd Hn. cbn. rewrite Hd. cbn. rewrite Hn. by destruct (n =? 0).
Qed.

(** C10: when the DELETE statement itself succeeded and the driver then
    fails to report the affected-row count (it returns the zero count
    with an error), the error is dropped: the response is the 404 of a
    zero count, not a 500, and nothing is logged. *)
Theorem C10_rows_affected_error_is_discarded
    {S : Type} (d : ∀ X, dbCall X → S → X * S) (s s' : S)
    (id : Z) (res : Result) (e : error) :
  d _ (Exec sqlDelete [ArgInt id]) s = (Ok res, s') →
  RowsAffected res = (0, Some e) →
  run d (deleteBook fresh id) s
  = (respondError fresh http.StatusNotFound "book not found", s', []) ∧
  Status (respondError fresh http.StatusNotFound "book not found") = Some 404 ∧
  (run d (deleteBook fresh id) s).1.1 ≠ internal_error_response.
Proof.
  intros Hd Hn. rewrite (deleteBook_count d s s' id res 0 (Some e) Hd Hn).
  by repeat split.
Qed.

Lemma C10_witness :
  run count_unreported (deleteBook fresh 1) tt
  = (respondError fresh http.StatusNotFound "book not found", tt, []) ∧
  Status (respondError fresh http.StatusNotFound "book not found") = Some 404 ∧
  (run count_unreported (deleteBook fresh 1) tt).1.1 ≠ internal_error_response.
Proof.
  apply (C10_rows_affected_error_is_discarded count_unreported tt tt 1
           (mkResult (0, Some (ErrOther "driver: no RowsAffected available")))
           (ErrOther "driver: no RowsAffected available")); reflexivity.
Defined.

(** ** Failures of the database calls *)

(** Past the validation, Create and Update are one statement each. *)
Lemma createBook_valid Decode (w : ResponseWriter) (r : Request) (t a : string) :
  Decode (ReqBody r) = Ok (mkPayload t a) → t ≠ "" → a ≠ "" →
  createBook Decode w r
  = Call (QueryRow_Scan sqlInsert [ArgText t; ArgText a]) (λ r,
      match r with
      | Err err => respondInternalError w err
      | Ok b => Ret (respondJSON w http.StatusCreated (VBook b))
      end).
Proof.
  intros Hdec Ht Ha. unfold createBook. rewrite Hdec. cbn [pTitle pAuthor].
  destruct (String.eqb_spec t ""); [done|].
  by destruct (String.eqb_spec a "").
Qed.

Lemma updateBook_valid Decode (w : ResponseWriter) (r : Request) (id : Z) (t a : string) :
  Decode (ReqBody r) = Ok (mkPayload t a) → t ≠ "" → a ≠ "" →
  updateBook Decode w r id
  = Call (QueryRow_Scan sqlUpdate [ArgText t; ArgText a; ArgInt id]) (λ r,
      match r with
      | Err err =>
          if is_ErrNoRows err then Ret (respondError w http.StatusNotFound "book not found")
          else respondInternalError w err
      | Ok b => Ret (respondJSON w http.StatusOK (VBook b))
      end).
Proof.
  intros Hdec Ht Ha. unfold updateBook. rewrite Hdec. cbn [pTitle pAuthor].
  destruct (String.eqb_spec t ""); [done|].
  by destruct (String.eqb_spec a "").
Qed.

(** C7, as the claim states it, fails on Delete: with a driver that
    runs the DELETE and then cannot report the affected-row count, the
    failure is answered 404, and no cause is logged. *)
Lemma C7_counterexample :
  ∃ e : error,
    (count_unreported _ (Exec sqlDelete [ArgInt 1]) tt).1 = Ok (mkResult (0, Some e)) ∧
    Status (run count_unreported (deleteBook fresh 1) tt).1.1 = Some 404 ∧
    Status (run count_unreported (deleteBook fresh 1) tt).1.1 ≠ Some 500 ∧
    (run count_unreported (deleteBook fresh 1) tt).2 = [].
Proof. eexists. by repeat split. Qed.

(** C7 (amended): every error that a handler's database call returns,
    and every error of a row scan in List, is answered by one fixed
    response, status 500 with the body [{"error": "internal server
    error"}], in which the error does not occur; the server log gets
    the error's text.  In Get and Update the error [sql.ErrNoRows] is
    the not-found answer and is excepted.  This holds under every
    driver. *)
Theorem C7_returned_errors_are_opaque_500
    {S : Type} (d : ∀ X, dbCall X → S → X * S)
    (Decode : string → res bookPayload) (e : error) (s s' : S) :
  let failed := (internal_error_response, s', ["internal error: " +:+ Error e]) in
  (d _ (Query sqlList []) s = (Err e, s') → run d (listBooks fresh) s = failed)
  ∧ (∀ rows bs rest,
       d _ (Query sqlList []) s = (Ok rows, s') →
       scans rows = (Ok <$> bs) ++ Err e :: rest →
       run d (listBooks fresh) s = failed)
  ∧ (∀ id, is_ErrNoRows e = false →
       d _ (QueryRow_Scan sqlGet [ArgInt id]) s = (Err e, s') →
       run d (getBook fresh id) s = failed)
  ∧ (∀ r t a, Decode (ReqBody r) = Ok (mkPayload t a) → t ≠ "" → a ≠ "" →
       d _ (QueryRow_Scan sqlInsert [ArgText t; ArgText a]) s = (Err e, s') →
       run d (createBook Decode fresh r) s = failed)
  ∧ (∀ r id t a, Decode (ReqBody r) = Ok (mkPayload t a) → t ≠ "" → a ≠ "" →
       is_ErrNoRows e = false →
       d _ (QueryRow_Scan sqlUpdate [ArgText t; ArgText a; ArgInt id]) s = (Err e, s') →
       run d (updateBook Decode fresh r id) s = failed)
  ∧ (∀ id, d _ (Exec sqlDelete [ArgInt id]) s = (Err e, s') →
       run d (deleteBook fresh id) s = failed).
Proof.
  intros failed. subst failed. repeat split.
  - intros Hd. cbn. by rewrite Hd.
  - intros rows bs rest Hd Hs. cbn. rewrite Hd. cbn.
    by rewrite Hs, listBooks_loop_scan_error.
  - intros id He Hd. cbn. rewrite Hd. cbn. by rewrite He.
  - intros r t a Hdec Ht Ha Hd.
    rewrite (createBook_valid _ _ _ _ _ Hdec Ht Ha). cbn. by rewrite Hd.
  - intros r id t a Hdec Ht Ha He Hd.
    rewrite (updateBook_valid _ _ _ _ _ _ Hdec Ht Ha). cbn. rewrite Hd. cbn.
    by rewrite He.
  - intros id Hd. cbn. by rewrite Hd.
Qed.

Lemma C7_witness :
  let e := ErrOther "pq: the database system is shutting down" in
  let db := mkDB {[1 := mkRow "Dune" "Herbert" 3 3]} 2 9 (Some e) in
  let failed := (internal_error_response, db, ["internal error: " +:+ Error e]) in
  run pg (listBooks fresh) db = failed
  ∧ run second_scan_fails (listBooks fresh) tt
    = (internal_error_response, tt, ["internal error: sql: Scan error on column index 3"])
  ∧ run pg (getBook fresh 1) db = failed
  ∧ run pg (createBook decode_bar fresh (mkRequest "POST" "/books" "Emma|Austen")) db = failed
  ∧ run pg (updateBook decode_bar fresh (mkRequest "PUT" "/books/1" "Emma|Austen") 1) db
    = failed
  ∧ run pg (deleteBook fresh 1) db = failed.
Proof.
  intros e db failed.
  pose proof (C7_returned_errors_are_opaque_500 pg decode_bar e db db)
    as (Hlist & _ & Hget & Hcreate & Hupdate & Hdelete).
  pose proof (C7_returned_errors_are_opaque_500 second_scan_fails decode_bar
                (ErrOther "sql: Scan error on column index 3") tt tt)
    as (_ & Hscan & _).
  split; [apply Hlist; reflexivity|].
  split; [apply (Hscan (mkRows [Ok (mkBook 1 "Dune" "Herbert" 3 3);
                                 Err (ErrOther "sql: Scan error on column index 3")] None)
                   [mkBook 1 "Dune" "Herbert" 3 3] []); reflexivity|].
  split; [apply Hget; reflexivity|].
  split; [apply (Hcreate _ "Emma" "Austen"); [reflexivity|discriminate..|reflexivity]|].
  split; [apply (Hupdate _ _ "Emma" "Austen");
            [reflexivity|discriminate..|reflexivity|reflexivity]|].
  apply Hdelete; reflexivity.
Defined.

(** ** List on the books table *)

#[global] Instance by_id_total : Total by_id.
Proof. intros x y. unfold by_id. lia. Qed.

#[global] Instance by_id_trans : Transitive by_id.
Proof. intros x y z. unfold by_id. lia. Qed.

Lemma sorted_distinct_keys (l : list (Z * row)) :
  StronglySorted by_id l → NoDup (l.*1) → ascending (scan_row <$> l).
Proof.
  induction 1 as [|x l Hl IH Hx]; intros Hnd; cbn; [constructor|].
  apply NoDup_cons in Hnd as [Hx' Hnd].
  constructor; [by apply IH|].
  apply Forall_fmap, Forall_forall. intros y Hy. cbn.
  rewrite Forall_forall in Hx. specialize (Hx y Hy). unfold by_id in Hx.
  assert (x.1 ≠ y.1); [|lia].
  intros Heq. apply Hx'. rewrite Heq. apply list_elem_of_fmap. by exists y.
Qed.

Lemma select_all_ascending (m : gmap Z row) : ascending (select_all m).
Proof.
  apply sorted_distinct_keys.
  - apply StronglySorted_merge_sort; apply _.
  - rewrite merge_sort_Permutation. apply NoDup_fst_map_to_list.
Qed.

(** The listing has the stored rows, all of them and no other. *)
Lemma elem_of_select_all (m : gmap Z row) (b : Book) :
  b ∈ select_all m
  ↔ m !! ID b = Some (mkRow (Title b) (Author b) (CreatedAt b) (UpdatedAt b)).
Proof.
  unfold select_all. rewrite list_elem_of_fmap. split.
  - intros ([id r] & -> & Hin). rewrite merge_sort_Permutation in Hin.
    apply elem_of_map_to_list in Hin. by destruct r.
  - intros Hb. exists (ID b, mkRow (Title b) (Author b) (CreatedAt b) (UpdatedAt b)).
    split; [by destruct b|].
    rewrite merge_sort_Permutation. by apply elem_of_map_to_list.
Qed.

Lemma length_select_all (m : gmap Z row) : length (select_all m) = size m.
Proof.
  unfold select_all. rewrite length_fmap, merge_sort_Permutation.
  apply length_map_to_list.
Qed.

Lemma run_listBooks_pg (db : database) :
  failing db = None →
  run pg (listBooks fresh) db
  = (respondJSON fresh http.StatusOK
       (VBooks (match select_all (books db) with [] => None | l => Some l end)), db, []).
Proof.
  intros Hup. cbn. rewrite Hup. cbn.
  rewrite listBooks_loop_scanned, foldl_append_None.
  by destruct (select_all (books db)).
Qed.

(** On a table with at least one row, List answers 200 with a JSON
    array of the stored books in ascending id order. *)
Theorem listBooks_nonempty_ascending (db : database) :
  failing db = None → books db ≠ ∅ →
  ∃ l : list Book,
    ascending l ∧
    (∀ b, b ∈ l ↔ books db !! ID b
                  = Some (mkRow (Title b) (Author b) (CreatedAt b) (UpdatedAt b))) ∧
    length l = size (books db) ∧
    run pg (listBooks fresh) db
    = (mkWriter [("Content-Type", "application/json")] (Some 200)
         [JArray (Marshal_Book <$> l)], db, []).
Proof.
  intros Hup Hne. exists (select_all (books db)).
  split; [apply select_all_ascending|]. split; [apply elem_of_select_all|].
  split; [apply length_select_all|].
  rewrite run_listBooks_pg by done.
  destruct (select_all (books db)) as [|b l] eqn:Hsel; [|done].
  exfalso. apply Hne. apply map_size_empty_iff.
  by rewrite <- length_select_all, Hsel.
Qed.

(** C1, on the empty table: List answers 200, and the body it writes is
    the JSON [null] of the nil slice [var books []Book], to which
    nothing was appended; it is not the empty array. *)
Theorem C1_list_on_empty_table_writes_null (seq : Z) (t : Time) :
  let db := mkDB ∅ seq t None in
  run pg (listBooks fresh) db
  = (mkWriter [("Content-Type", "application/json")] (Some 200) [JNull], db, [])
  ∧ JNull ≠ JArray [].
Proof. intros db. split; [reflexivity|discriminate]. Qed.

(** ** The statements on the books table *)

Lemma consistent_empty (t : Time) : consistent (empty_db t).
Proof. split; [done|]. intros id r. cbn. by rewrite lookup_empty. Qed.

(** The next value of the sequence is not a stored id. *)
Lemma consistent_next_id (db : database) :
  consistent db → books db !! books_id_seq db = None.
Proof.
  intros [_ Hc]. destruct (books db !! books_id_seq db) as [r|] eqn:Hr; [|done].
  apply Hc in Hr. lia.
Qed.


(** The clock and the state of the connection are not the table's: the
    invariant survives whatever happens to them between two requests. *)
Lemma consistent_same_table (db db' : database) :
  books db' = books db → books_id_seq db' = books_id_seq db →
  consistent db → consistent db'.
Proof. intros Hb Hs Hc. unfold consistent. by rewrite Hb, Hs. Qed.

Lemma consistent_insert (db : database) (r : row) (t : Time) (f : option error) :
  consistent db →
  consistent (mkDB (<[books_id_seq db := r]> (books db)) (books_id_seq db + 1) t f).
Proof.
  intros [Hseq Hc]. split; cbn; [lia|]. intros id r'.
  rewrite lookup_insert. case_decide as Hid.
  - intros _. lia.
  - intros Hr. apply Hc in Hr. lia.
Qed.

Lemma consistent_next (db : database) (t : Time) (f : option error) :
  consistent db → consistent (mkDB (books db) (books_id_seq db + 1) t f).
Proof.
  intros [Hseq Hc]. split; cbn; [lia|]. intros id r Hr. apply Hc in Hr. lia.
Qed.

Lemma consistent_update (db : database) (id : Z) (old r : row) :
  books db !! id = Some old → consistent db →
  consistent (with_books db (<[id := r]> (books db))).
Proof.
  intros Hold [Hseq Hc]. split; [done|]. intros id' r'. cbn.
  rewrite lookup_insert. case_decide as Hid.
  - intros _. subst id'. by apply Hc in Hold.
  - apply Hc.
Qed.

Lemma consistent_delete (db : database) (id : Z) :
  consistent db → consistent (with_books db (delete id (books db))).
Proof.
  intros [Hseq Hc]. split; [done|]. intros id' r'. cbn.
  rewrite lookup_delete. case_decide; [done|apply Hc].
Qed.

(** Every statement keeps the invariant, whether it succeeds or not. *)
Lemma pg_consistent (X : Type) (c : dbCall X) (db : database) :
  consistent db → consistent (pg X c db).2.
Proof.
  intros Hc. destruct c as [q args|q args|q args]; cbn;
    destruct (failing db) eqn:Hf; try done.
  - by destruct (String.eqb q sqlList).
  - repeat case_match; unfold with_books; cbn; try done;
      eauto using consistent_insert, consistent_next, consistent_update.
  - repeat case_match; cbn; try done; eauto using consistent_delete.
Qed.

Lemma run_consistent {A : Type} (p : prog A) (db : database) :
  consistent db → consistent (run pg p db).1.2.
Proof.
  revert db. induction p as [a|X c k IH|line k IH]; intros db Hc; cbn.
  - done.
  - destruct (pg X c db) as [x db'] eqn:Hpg. apply IH.
    change db' with (x, db').2. rewrite <- Hpg. by apply pg_consistent.
  - specialize (IH db Hc). by destruct (run pg k db) as [[a db'] out].
Qed.

(** *** Get, Create, Update and Delete on a working connection *)

Lemma run_getBook_pg (db : database) (id : Z) :
  failing db = None →
  run pg (getBook fresh id) db
  = (match books db !! id with
     | Some r => respondJSON fresh http.StatusOK (VBook (scan_row (id, r)))
     | None => respondError fresh http.StatusNotFound "book not found"
     end, db, []).
Proof. intros Hup. cbn. rewrite Hup. by destruct (books db !! id). Qed.

Lemma run_createBook_pg Decode (r : Request) (t a : string) (db : database) :
  Decode (ReqBody r) = Ok (mkPayload t a) → t ≠ "" → a ≠ "" →
  failing db = None → books db !! books_id_seq db = None →
  run pg (createBook Decode fresh r) db
  = (respondJSON fresh http.StatusCreated
       (VBook (mkBook (books_id_seq db) t a (now db) (now db))),
     mkDB (<[books_id_seq db := mkRow t a (now db) (now db)]> (books db))
       (books_id_seq db + 1) (now db) (failing db), []).
Proof.
  intros Hdec Ht Ha Hup Hnew. rewrite (createBook_valid _ _ _ _ _ Hdec Ht Ha).
  cbn. rewrite Hup. cbn. by rewrite Hnew.
Qed.

Lemma run_updateBook_pg Decode (r : Request) (id : Z) (t a : string) (db : database) :
  Decode (ReqBody r) = Ok (mkPayload t a) → t ≠ "" → a ≠ "" →
  failing db = None →
  run pg (updateBook Decode fresh r id) db
  = match books db !! id with
    | Some old =>
        (respondJSON fresh http.StatusOK (VBook (mkBook id t a (created_at old) (now db))),
         with_books db (<[id := mkRow t a (created_at old) (now db)]> (books db)), [])
    | None => (respondError fresh http.StatusNotFound "book not found", db, [])
    end.
Proof.
  intros Hdec Ht Ha Hup. rewrite (updateBook_valid _ _ _ _ _ _ Hdec Ht Ha).
  cbn. rewrite Hup. by destruct (books db !! id).
Qed.

Lemma run_deleteBook_pg (db : database) (id : Z) :
  failing db = None →
  run pg (deleteBook fresh id) db
  = match books db !! id with
    | Some _ => (WriteHeader fresh http.StatusNoContent,
                 with_books db (delete id (books db)), [])
    | None => (respondError fresh http.StatusNotFound "book not found", db, [])
    end.
Proof. intros Hup. cbn. rewrite Hup. by destruct (books db !! id). Qed.

(** C3: on a working connection and a table in its invariant, a Create
    with a non-empty title and author answers 201 with the stored
    record: its id is the next value of the sequence, its title and
    author are the request's, and its two timestamps are the one clock
    reading of the INSERT.  A Get of that id, at any later time and as
    long as the table is the same, answers 200 with that same record. *)
Theorem C3_create_then_get
    (Decode : string → res bookPayload) (r : Request) (t a : string) (db : database) :
  Decode (ReqBody r) = Ok (mkPayload t a) → t ≠ "" → a ≠ "" →
  consistent db → failing db = None →
  ∃ (b : Book) (db1 : database),
    run pg (createBook Decode fresh r) db
    = (respondJSON fresh http.StatusCreated (VBook b), db1, []) ∧
    Status (respondJSON fresh http.StatusCreated (VBook b)) = Some 201 ∧
    Body (respondJSON fresh http.StatusCreated (VBook b)) = [Marshal_Book b] ∧
    ID b = books_id_seq db ∧ Title b = t ∧ Author b = a ∧
    CreatedAt b = now db ∧ CreatedAt b = UpdatedAt b ∧
    consistent db1 ∧
    ∀ db2 : database,
      books db2 = books db1 → failing db2 = None →
      run pg (getBook fresh (ID b)) db2 = (respondJSON fresh http.StatusOK (VBook b), db2, []) ∧
      Status (respondJSON fresh http.StatusOK (VBook b)) = Some 200.
Proof.
  intros Hdec Ht Ha Hc Hup.
  pose proof (run_createBook_pg Decode r t a db Hdec Ht Ha Hup
                (consistent_next_id db Hc)) as Hrun.
  eexists (mkBook (books_id_seq db) t a (now db) (now db)), _.
  split; [exact Hrun|]. repeat (split; [done|]).
  split; [by apply consistent_insert|].
  intros db2 Hsame Hup2. split; [|done].
  rewrite run_getBook_pg by done. rewrite Hsame. cbn.
  by rewrite lookup_insert_eq.
Qed.

Lemma C3_witness :
  ∃ (b : Book) (db1 : database),
    run pg (createBook decode_bar fresh (mkRequest "POST" "/books" "Dune|Herbert"))
      (empty_db 7)
    = (respondJSON fresh http.StatusCreated (VBook b), db1, []) ∧
    Status (respondJSON fresh http.StatusCreated (VBook b)) = Some 201 ∧
    Body (respondJSON fresh http.StatusCreated (VBook b)) = [Marshal_Book b] ∧
    ID b = books_id_seq (empty_db 7) ∧ Title b = "Dune" ∧ Author b = "Herbert" ∧
    CreatedAt b = now (empty_db 7) ∧ CreatedAt b = UpdatedAt b ∧
    consistent db1 ∧
    ∀ db2 : database,
      books db2 = books db1 → failing db2 = None →
      run pg (getBook fresh (ID b)) db2 = (respondJSON fresh http.StatusOK (VBook b), db2, []) ∧
      Status (respondJSON fresh http.StatusOK (VBook b)) = Some 200.
Proof.
  apply (C3_create_then_get decode_bar (mkRequest "POST" "/books" "Dune|Herbert")
           "Dune" "Herbert" (empty_db 7)).
  - reflexivity.
  - discriminate.
  - discriminate.
  - apply consistent_empty.
  - reflexivity.
Defined.






(** *** The per-id route on [postgres] *)








(** *** The statements a request sends *)

Section Statements.

Context {S : Type} (d : ∀ X, dbCall X → S → X * S).
Context (Decode : string → res bookPayload).

Lemma listBooks_loop_calls (rs : list (res Book)) (acc : slice Book) (s : S) :
  calls d (listBooks_loop fresh rs acc) s = [].
Proof. revert acc. induction rs as [|[b|e] rs IH]; intros acc; cbn; [done|apply IH|done]. Qed.

Lemma listBooks_calls (s : S) : calls d (listBooks fresh) s = [(sqlList, [])].
Proof.
  cbn. destruct (d _ _ s) as [[rows|e] s']; [|done].
  by rewrite listBooks_loop_calls.
Qed.

Lemma getBook_calls (id : Z) (s : S) : calls d (getBook fresh id) s = [(sqlGet, [ArgInt id])].
Proof. cbn. by destruct (d _ _ s) as [[b|[|text]] s']. Qed.

Lemma deleteBook_calls (id : Z) (s : S) :
  calls d (deleteBook fresh id) s = [(sqlDelete, [ArgInt id])].
Proof.
  cbn. destruct (d _ _ s) as [[[[n oe]]|e] s']; [|done]. cbn. by destruct (n =? 0).
Qed.

Lemma createBook_calls (r : Request) (s : S) :
  calls d (createBook Decode fresh r) s
  = match Decode (ReqBody r) with
    | Ok payload =>
        if String.eqb (pTitle payload) "" || String.eqb (pAuthor payload) "" then []
        else [(sqlInsert, [ArgText (pTitle payload); ArgText (pAuthor payload)])]
    | Err _ => []
    end.
Proof.
  unfold createBook. destruct (Decode _) as [payload|e]; [|done].
  destruct (_ || _); [done|]. cbn. by destruct (d _ _ s) as [[b|e] s'].
Qed.

Lemma updateBook_calls (r : Request) (id : Z) (s : S) :
  calls d (updateBook Decode fresh r id) s
  = match Decode (ReqBody r) with
    | Ok payload =>
        if String.eqb (pTitle payload) "" || String.eqb (pAuthor payload) "" then []
        else [(sqlUpdate, [ArgText (pTitle payload); ArgText (pAuthor payload); ArgInt id])]
    | Err _ => []
    end.
Proof.
  unfold updateBook. destruct (Decode _) as [payload|e]; [|done].
  destruct (_ || _); [done|]. cbn. by destruct (d _ _ s) as [[b|[|text]] s'].
Qed.

Lemma one_of_statements (q : string) (args : list sqlArg) :
  q ∈ statements → at_most_one [(q, args)].
Proof. intros Hq. right. by exists q, args. Qed.

End Statements.

(** X3: whatever the request, the route and the driver, a request sends
    at most one statement, and its text is one of the five constant
    texts of the handlers: what the client sent is never part of the
    text, it travels in the arguments only. *)
Theorem X3_at_most_one_constant_statement
    {S : Type} (d : ∀ X, dbCall X → S → X * S) (Decode : string → res bookPayload)
    (via : route) (r : Request) (s : S) :
  at_most_one (calls d (handle Decode via r) s).
Proof.
  destruct via; cbn [handle].
  - unfold handleBooks.
    destruct (String.eqb _ _).
    { rewrite listBooks_calls. apply one_of_statements. apply list_elem_of_In; cbn; tauto. }
    destruct (String.eqb _ _); [|by left].
    rewrite createBook_calls. destruct (Decode _) as [payload|e]; [|by left].
    destruct (_ || _); [by left|]. apply one_of_statements. apply list_elem_of_In; cbn; tauto.
  - unfold handleBookByID.
    destruct (strconv.ParseInt _) as [id [e|]]; [by left|].
    destruct (String.eqb _ _).
    { rewrite getBook_calls. apply one_of_statements. apply list_elem_of_In; cbn; tauto. }
    destruct (String.eqb _ _).
    { rewrite updateBook_calls. destruct (Decode _) as [payload|e]; [|by left].
      destruct (_ || _); [by left|]. apply one_of_statements. apply list_elem_of_In; cbn; tauto. }
    destruct (String.eqb _ _); [|by left].
    rewrite deleteBook_calls. apply one_of_statements. apply list_elem_of_In; cbn; tauto.
Qed.

(** *** The collection route *)

Section CollectionRoute.

Context {S : Type} (d : ∀ X, dbCall X → S → X * S).
Context (Decode : string → res bookPayload).

Lemma listBooks_loop_status (rs : list (res Book)) (acc : slice Book) (s : S) :
  Status (run d (listBooks_loop fresh rs acc) s).1.1 ∈ [Some 200; Some 500].
Proof.
  revert acc. induction rs as [|[b|e] rs IH]; intros acc; cbn [listBooks_loop].
  - apply list_elem_of_In; cbn; tauto.
  - apply IH.
  - apply list_elem_of_In; cbn; tauto.
Qed.

Lemma listBooks_status (s : S) :
  Status (run d (listBooks fresh) s).1.1 ∈ [Some 200; Some 500].
Proof.
  cbn. destruct (d _ _ s) as [[rows|e] s'].
  - apply listBooks_loop_status.
  - apply list_elem_of_In; cbn; tauto.
Qed.

Lemma createBook_status (r : Request) (s : S) :
  Status (run d (createBook Decode fresh r) s).1.1 ∈ [Some 201; Some 400; Some 500].
Proof.
  unfold createBook.
  destruct (Decode _) as [payload|e]; [|apply list_elem_of_In; cbn; tauto].
  destruct (_ || _); [apply list_elem_of_In; cbn; tauto|].
  cbn. destruct (d _ _ s) as [[b|e] s']; apply list_elem_of_In; cbn; tauto.
Qed.

End CollectionRoute.

(** X4: on the collection route the method alone decides.  GET is the
    listing and answers 200 or 500 whatever the path and the body hold;
    POST is Create and answers 201, 400 or 500; every other method gets
    405 without a statement.  So the route never answers 404 or 204,
    and it answers 405 only to a method other than GET and POST. *)
Theorem X4_collection_route_by_method
    (Decode : string → res bookPayload) (r : Request) :
  (Method r = http.MethodGet → handleBooks Decode fresh r = listBooks fresh) ∧
  (Method r = http.MethodPost → handleBooks Decode fresh r = createBook Decode fresh r) ∧
  (Method r ∉ [http.MethodGet; http.MethodPost] →
   handleBooks Decode fresh r
   = Ret (respondError fresh http.StatusMethodNotAllowed "method not allowed")) ∧
  ∀ (S : Type) (d : ∀ X, dbCall X → S → X * S) (s : S),
    let code := Status (run d (handleBooks Decode fresh r) s).1.1 in
    (Method r = http.MethodGet → code ∈ [Some 200; Some 500]) ∧
    (Method r = http.MethodPost → code ∈ [Some 201; Some 400; Some 500]) ∧
    (code = Some 405 → Method r ∉ [http.MethodGet; http.MethodPost]) ∧
    code ∈ [Some 200; Some 201; Some 400; Some 405; Some 500].
Proof.
  unfold handleBooks.
  split; [by intros ->|]. split; [by intros ->|].
  split.
  { intros Hm.
    destruct (String.eqb_spec (Method r) http.MethodGet) as [Heq|_];
      [exfalso; apply Hm; rewrite Heq; apply list_elem_of_In; cbn; tauto|].
    destruct (String.eqb_spec (Method r) http.MethodPost) as [Heq|_];
      [exfalso; apply Hm; rewrite Heq; apply list_elem_of_In; cbn; tauto|].
    done. }
  intros S d s.
  destruct (String.eqb_spec (Method r) http.MethodGet) as [Hget|Hget].
  { pose proof (listBooks_status d s) as Hs.
    split; [intros _; exact Hs|].
    split; [intros Hp; rewrite Hget in Hp; discriminate Hp|].
    split; [intros H405; rewrite H405 in Hs; absurd_status Hs|].
    apply list_elem_of_In. apply list_elem_of_In in Hs. cbn in *. tauto. }
  destruct (String.eqb_spec (Method r) http.MethodPost) as [Hpost|Hpost].
  { pose proof (createBook_status d Decode r s) as Hs.
    split; [intros Hg; by destruct Hget|]. split; [intros _; exact Hs|].
    split; [intros H405; rewrite H405 in Hs; absurd_status Hs|].
    apply list_elem_of_In. apply list_elem_of_In in Hs. cbn in *. tauto. }
  split; [done|]. split; [done|]. split.
  - intros _ Hin. apply list_elem_of_In in Hin. cbn in Hin.
    destruct Hin as [Heq|[Heq|[]]]; congruence.
  - apply list_elem_of_In; cbn; tauto.
Qed.

Lemma X4_witness :
  handleBooks decode_bar fresh (mkRequest "GET" "/books" "ignored") = listBooks fresh ∧
  handleBooks decode_bar fresh post_dune = createBook decode_bar fresh post_dune ∧
  handleBooks decode_bar fresh (mkRequest "DELETE" "/books" "")
  = Ret (respondError fresh http.StatusMethodNotAllowed "method not allowed").
Proof.
  split; [|split].
  - apply (X4_collection_route_by_method decode_bar (mkRequest "GET" "/books" "ignored")).
    reflexivity.
  - apply (X4_collection_route_by_method decode_bar post_dune). reflexivity.
  - apply (X4_collection_route_by_method decode_bar (mkRequest "DELETE" "/books" "")).
    apply (bool_decide_unpack _). vm_compute. exact I.
Defined.

(** *** The id segment *)

(** X5: for every method and body, the per-id handler is the bare 400
    [invalid id] exactly when the segment after [/books/] does not write
    an integer of the int64 range in base 10 (an optional sign, then
    digits): an empty segment, a trailing slash, a letter, a number
    out of range are all refused, and nothing else is. *)
Theorem X5_invalid_id_exactly_non_int64
    (Decode : string → res bookPayload) (method seg body : string) :
  handleBookByID Decode fresh (mkRequest method ("/books/" +:+ seg) body)
  = Ret (respondError fresh http.StatusBadRequest "invalid id")
  ↔ ¬ ∃ id, decimal seg = Some id ∧ - 2 ^ 63 ≤ id < 2 ^ 63.
Proof.
  rewrite <- ParseInt_error_iff. split.
  - intros Heq Hnone. destruct (strconv.ParseInt seg) as [id err] eqn:Hp.
    cbn in Hnone. subst err.
    rewrite (handleBookByID_parsed _ _ _ _ _ _ Hp) in Heq.
    destruct (String.eqb _ _); [discriminate Heq|].
    destruct (String.eqb _ _).
    { unfold updateBook in Heq. destruct (Decode _); [|discriminate Heq].
      destruct (_ || _); discriminate Heq. }
    destruct (String.eqb _ _); discriminate Heq.
  - intros Herr. destruct (strconv.ParseInt seg).2 as [e|] eqn:He; [|done].
    by apply handleBookByID_invalid_id with e.
Qed.

(** [updateBook] reads the body of the request and nothing else of it. *)
Lemma updateBook_body_only Decode (w : ResponseWriter) (r r' : Request) (id : Z) :
  ReqBody r = ReqBody r' → updateBook Decode w r id = updateBook Decode w r' id.
Proof. intros Hb. unfold updateBook. by rewrite Hb. Qed.

(** X6: the id is the number, not its spelling: two segments that write
    the same int64 in base 10 (a leading [+], leading zeros, [-0] for
    0) are the same request to the per-id handler, for every method and
    body. *)
Theorem X6_spellings_of_an_id
    (Decode : string → res bookPayload) (method seg1 seg2 body : string) (id : Z) :
  decimal seg1 = Some id → decimal seg2 = Some id → - 2 ^ 63 ≤ id < 2 ^ 63 →
  handleBookByID Decode fresh (mkRequest method ("/books/" +:+ seg1) body)
  = handleBookByID Decode fresh (mkRequest method ("/books/" +:+ seg2) body).
Proof.
  intros H1 H2 Hr.
  assert (Hp1 : strconv.ParseInt seg1 = (id, None)) by by apply ParseInt_decimal.
  assert (Hp2 : strconv.ParseInt seg2 = (id, None)) by by apply ParseInt_decimal.
  rewrite (handleBookByID_parsed _ _ _ _ _ _ Hp1), (handleBookByID_parsed _ _ _ _ _ _ Hp2).
  destruct (String.eqb _ _); [done|].
  destruct (String.eqb _ _); [by apply updateBook_body_only|done].
Qed.

Lemma X6_witness :
  handleBookByID decode_bar fresh (mkRequest "GET" "/books/+7" "")
  = handleBookByID decode_bar fresh (mkRequest "GET" "/books/007" "").
Proof.
  apply (X6_spellings_of_an_id decode_bar "GET" "+7" "007" "" 7).
  - reflexivity.
  - reflexivity.
  - change (2 ^ 63) with 9223372036854775808. lia.
Defined.

(** *** A listing that breaks off *)

(** X7: [listBooks] does not look at [rows.Err()].  When the iteration
    over the result stops on an error after the rows [bs], the client
    gets a 200 whose body is the listing of [bs] alone ([null] when
    there is none), and nothing is logged: the failure is invisible on
    both sides. *)
Theorem X7_broken_listing_is_a_200
    {S : Type} (d : ∀ X, dbCall X → S → X * S) (s s' : S)
    (bs : list Book) (e : error) :
  d _ (Query sqlList []) s = (Ok (mkRows (Ok <$> bs) (Some e)), s') →
  run d (listBooks fresh) s
  = (mkWriter [("Content-Type", "application/json")] (Some 200)
       [match bs with [] => JNull | _ => JArray (Marshal_Book <$> bs) end], s', []).
Proof.
  intros Hd. rewrite (listBooks_ignores_rows_Err d s s' bs (Some e) Hd).
  rewrite foldl_append_None. by destruct bs.
Qed.

Lemma X7_witness :
  run breaks_off (listBooks fresh) tt
  = (mkWriter [("Content-Type", "application/json")] (Some 200)
       [JArray [Marshal_Book (mkBook 1 "Dune" "Herbert" 3 3)]], tt, []).
Proof.
  apply (X7_broken_listing_is_a_200 breaks_off tt tt [mkBook 1 "Dune" "Herbert" 3 3]
           (ErrOther "driver: bad connection")).
  reflexivity.
Defined.

(** ** Every request, on the books table *)

Section OnTheTable.

Context (Decode : string → res bookPayload).

Lemma effect_refused (db : database) (code : Z) (msg : string) :
  code ∈ [400; 404; 405] → effect db (respondError fresh code msg) db.
Proof.
  intros Hc. apply effect_none. apply list_elem_of_In in Hc.
  apply list_elem_of_In. cbn in *.
  destruct Hc as [<-|[<-|[<-|[]]]]; tauto.
Qed.

Lemma effect_internal (db : database) : effect db internal_error_response db.
Proof. apply effect_none. apply list_elem_of_In. cbn. tauto. Qed.

Lemma effect_json_200 (db : database) (v : value) :
  effect db (respondJSON fresh http.StatusOK v) db.
Proof. apply effect_none. apply list_elem_of_In. cbn. tauto. Qed.

Lemma listBooks_effect (db : database) :
  effect db (run pg (listBooks fresh) db).1.1 (run pg (listBooks fresh) db).1.2.
Proof.
  destruct (failing db) as [e|] eqn:Hf.
  - cbn. rewrite Hf. apply effect_internal.
  - rewrite run_listBooks_pg by done. apply effect_json_200.
Qed.

Lemma getBook_effect (db : database) (id : Z) :
  effect db (run pg (getBook fresh id) db).1.1 (run pg (getBook fresh id) db).1.2.
Proof.
  destruct (failing db) as [e|] eqn:Hf.
  - cbn. rewrite Hf. cbn. destruct e; cbn.
    + apply effect_refused. apply list_elem_of_In. cbn. tauto.
    + apply effect_internal.
  - rewrite run_getBook_pg by done. destruct (books db !! id); cbn.
    + apply effect_json_200.
    + apply effect_refused. apply list_elem_of_In. cbn. tauto.
Qed.

Lemma deleteBook_effect (db : database) (id : Z) :
  effect db (run pg (deleteBook fresh id) db).1.1 (run pg (deleteBook fresh id) db).1.2.
Proof.
  destruct (failing db) as [e|] eqn:Hf.
  - cbn. rewrite Hf. apply effect_internal.
  - rewrite run_deleteBook_pg by done. destruct (books db !! id) as [old|] eqn:Hold; cbn.
    + by apply effect_delete with old.
    + apply effect_refused. apply list_elem_of_In. cbn. tauto.
Qed.

(** What the validation lets through. *)
Lemma validation_accepts (t a : string) :
  String.eqb t "" || String.eqb a "" = false → t ≠ "" ∧ a ≠ "".
Proof.
  intros H. apply orb_false_elim in H as [Ht Ha].
  split; by apply String.eqb_neq.
Qed.

Lemma createBook_effect (r : Request) (db : database) :
  effect db (run pg (createBook Decode fresh r) db).1.1
    (run pg (createBook Decode fresh r) db).1.2.
Proof.
  unfold createBook. destruct (Decode _) as [[t a]|e]; cbn [pTitle pAuthor].
  - destruct (_ || _) eqn:Hv.
    { apply effect_refused. apply list_elem_of_In. cbn. tauto. }
    apply validation_accepts in Hv as [Ht Ha].
    cbn. destruct (failing db) as [e|] eqn:Hf; [apply effect_internal|].
    cbn. destruct (books db !! books_id_seq db) as [taken|] eqn:Hid; cbn.
    + rewrite <- Hf. by apply effect_taken with taken.
    + rewrite <- Hf. by apply (effect_insert db t a).
  - apply effect_refused. apply list_elem_of_In. cbn. tauto.
Qed.

Lemma updateBook_effect (r : Request) (id : Z) (db : database) :
  effect db (run pg (updateBook Decode fresh r id) db).1.1
    (run pg (updateBook Decode fresh r id) db).1.2.
Proof.
  unfold updateBook. destruct (Decode _) as [[t a]|e]; cbn [pTitle pAuthor].
  - destruct (_ || _) eqn:Hv.
    { apply effect_refused. apply list_elem_of_In. cbn. tauto. }
    apply validation_accepts in Hv as [Ht Ha].
    cbn. destruct (failing db) as [e|] eqn:Hf.
    { cbn. destruct e; cbn; [|apply effect_internal].
      apply effect_refused. apply list_elem_of_In. cbn. tauto. }
    destruct (books db !! id) as [old|] eqn:Hold; cbn.
    + by apply (effect_update db id old t a).
    + apply effect_refused. apply list_elem_of_In. cbn. tauto.
  - apply effect_refused. apply list_elem_of_In. cbn. tauto.
Qed.

Lemma handle_effect (via : route) (r : Request) (db : database) :
  effect db (run pg (handle Decode via r) db).1.1 (run pg (handle Decode via r) db).1.2.
Proof.
  destruct via; cbn [handle].
  - unfold handleBooks.
    destruct (String.eqb _ _); [apply listBooks_effect|].
    destruct (String.eqb _ _); [apply createBook_effect|].
    apply effect_refused. apply list_elem_of_In. cbn. tauto.
  - unfold handleBookByID.
    destruct (strconv.ParseInt _) as [id [e|]];
      [apply effect_refused; apply list_elem_of_In; cbn; tauto|].
    destruct (String.eqb _ _); [apply getBook_effect|].
    destruct (String.eqb _ _); [apply updateBook_effect|].
    destruct (String.eqb _ _); [apply deleteBook_effect|].
    apply effect_refused. apply list_elem_of_In. cbn. tauto.
Qed.

End OnTheTable.

Lemma listBooks_reads (db : database) : (run pg (listBooks fresh) db).1.2 = db.
Proof.
  destruct (failing db) as [e|] eqn:Hf.
  - cbn. by rewrite Hf.
  - by rewrite run_listBooks_pg.
Qed.

Lemma getBook_reads (db : database) (id : Z) : (run pg (getBook fresh id) db).1.2 = db.
Proof.
  destruct (failing db) as [e|] eqn:Hf.
  - cbn. rewrite Hf. cbn. by destruct e.
  - by rewrite run_getBook_pg.
Qed.

(** *** Request after request *)

Section Sequences.

Context (Decode : string → res bookPayload).

Lemma serve_cons (db : database) (a : arrival) (l : list arrival) :
  serve Decode db (a :: l) = serve Decode (serve1 Decode db a).1.2 l.
Proof. reflexivity. Qed.

Lemma serve1_effect (db : database) (a : arrival) :
  effect (arrive db a) (serve1 Decode db a).1.1 (serve1 Decode db a).1.2.
Proof. apply handle_effect. Qed.

Lemma effect_now (db db' : database) (w : ResponseWriter) :
  effect db w db' → now db' = now db.
Proof. by destruct 1. Qed.

Lemma effect_consistent (db db' : database) (w : ResponseWriter) :
  effect db w db' → consistent db → consistent db'.
Proof.
  destruct 1; intros Hc;
    eauto using consistent_insert, consistent_next, consistent_update, consistent_delete.
Qed.

Lemma effect_ids (db db' : database) (w : ResponseWriter) :
  effect db w db' →
  books_id_seq db ≤ books_id_seq db' ∧
  ∀ id, id < books_id_seq db → books db !! id = None → books db' !! id = None.
Proof.
  destruct 1 as [w Hw|t a Ht Ha Hnew|taken Htaken|id' old t a Ht Ha Hold|id' old Hold]; cbn.
  - done.
  - split; [lia|]. intros id Hlt Hnone. rewrite lookup_insert_ne; [done|lia].
  - split; [lia|done].
  - split; [done|]. intros id Hlt Hnone. rewrite lookup_insert_ne; [done|congruence].
  - split; [done|]. intros id Hlt Hnone. rewrite lookup_delete. by case_decide.
Qed.

Lemma effect_titled (db db' : database) (w : ResponseWriter) :
  effect db w db' → titled db → titled db'.
Proof.
  destruct 1 as [w Hw|t a Ht Ha Hnew|taken Htaken|id' old t a Ht Ha Hold|id' old Hold];
    intros Hall id r; cbn; try apply Hall.
  - rewrite lookup_insert. case_decide; [by intros [= <-]|apply Hall].
  - rewrite lookup_insert. case_decide; [by intros [= <-]|apply Hall].
  - rewrite lookup_delete. case_decide; [done|apply Hall].
Qed.

Lemma effect_stamped (db db' : database) (w : ResponseWriter) :
  effect db w db' → stamped db → stamped db'.
Proof.
  destruct 1 as [w Hw|t a Ht Ha Hnew|taken Htaken|id' old t a Ht Ha Hold|id' old Hold];
    intros Hall id r; cbn; try apply Hall.
  - rewrite lookup_insert. case_decide; [intros [= <-]; cbn; lia|apply Hall].
  - rewrite lookup_insert. case_decide; [|apply Hall].
    intros [= <-]. cbn. apply Hall in Hold. lia.
  - rewrite lookup_delete. case_decide; [done|apply Hall].
Qed.

Lemma arrive_stamped (db : database) (a : arrival) :
  now db ≤ clock a → stamped db → stamped (arrive db a).
Proof. intros Hle Hall id r Hr. apply Hall in Hr. cbn. lia. Qed.

End Sequences.

(** X10: through any sequence of requests on a table in its invariant,
    whatever the clock and the connection do in between, the invariant
    holds at the end, the sequence has not gone back, and an id below
    the sequence that has no row (it was deleted, or its INSERT failed)
    has no row at the end: an id is never given a second time. *)
Theorem X10_an_id_is_never_given_again
    (Decode : string → res bookPayload) (db : database) (l : list arrival) :
  consistent db →
  consistent (serve Decode db l) ∧
  books_id_seq db ≤ books_id_seq (serve Decode db l) ∧
  ∀ id, id < books_id_seq db → books db !! id = None →
        books (serve Decode db l) !! id = None.
Proof.
  revert db. induction l as [|a l IH]; intros db Hc;
    [cbn; split; [done|]; split; [lia|done]|].
  rewrite serve_cons.
  pose proof (serve1_effect Decode db a) as He.
  assert (Hca : consistent (arrive db a)) by by apply (consistent_same_table db).
  pose proof (effect_consistent _ _ _ He Hca) as Hc1.
  pose proof (effect_ids _ _ _ He) as [Hseq Hids]. cbn in Hseq, Hids.
  destruct (IH _ Hc1) as (Hc2 & Hseq2 & Hids2).
  split; [done|]. split; [lia|].
  intros id Hlt Hnone. apply Hids2; [lia|]. by apply Hids.
Qed.

Lemma X10_witness :
  consistent (serve decode_bar (empty_db 0) three_requests) ∧
  books_id_seq (empty_db 0) ≤ books_id_seq (serve decode_bar (empty_db 0) three_requests) ∧
  ∀ id, id < books_id_seq (empty_db 0) → books (empty_db 0) !! id = None →
        books (serve decode_bar (empty_db 0) three_requests) !! id = None.
Proof.
  apply (X10_an_id_is_never_given_again decode_bar (empty_db 0) three_requests).
  apply consistent_empty.
Defined.

(** X11: a stored row never has an empty title or an empty author: if
    that holds of a table, it holds after any sequence of requests,
    because the validation of Create and Update stands before their
    statement. *)
Theorem X11_rows_keep_title_and_author
    (Decode : string → res bookPayload) (db : database) (l : list arrival) :
  titled db → titled (serve Decode db l).
Proof.
  revert db. induction l as [|a l IH]; intros db Hall; [done|].
  rewrite serve_cons. apply IH.
  apply (effect_titled _ _ _ (serve1_effect Decode db a)).
  intros id r. apply Hall.
Qed.

Lemma X11_witness : titled (serve decode_bar (empty_db 0) three_requests).
Proof.
  apply (X11_rows_keep_title_and_author decode_bar (empty_db 0) three_requests).
  intros id r. cbn. by rewrite lookup_empty.
Defined.

(** X12: as long as the clock of the database does not step back from
    one request to the next, every stored row has
    [created_at <= updated_at], and no timestamp is ahead of the clock:
    if that holds of a table, it holds after any sequence of requests. *)
Theorem X12_updated_at_not_before_created_at
    (Decode : string → res bookPayload) (db : database) (l : list arrival) :
  stamped db → forward (now db) l → stamped (serve Decode db l).
Proof.
  revert db. induction l as [|a l IH]; intros db Hall Hfw; [done|].
  destruct Hfw as [Hle Hfw]. rewrite serve_cons.
  pose proof (serve1_effect Decode db a) as He.
  apply IH.
  - apply (effect_stamped _ _ _ He). by apply arrive_stamped.
  - by rewrite (effect_now _ _ _ He).
Qed.

Lemma X12_witness : stamped (serve decode_bar (empty_db 0) three_requests).
Proof.
  apply (X12_updated_at_not_before_created_at decode_bar (empty_db 0) three_requests).
  - intros id r. cbn. by rewrite lookup_empty.
  - cbn. lia.
Defined.

(** *** The listing after a Create, an Update, a Delete *)

Lemma ascending_NoDup (l : list Book) : ascending l → NoDup l.
Proof.
  induction 1 as [|b l Hl IH Hb]; constructor; [|done].
  intros Hin. rewrite Forall_forall in Hb. specialize (Hb b Hin). cbn in Hb. lia.
Qed.

(** Two ascending lists with the same books are the same list. *)
Lemma ascending_ext (l k : list Book) :
  ascending l → ascending k → (∀ b, b ∈ l ↔ b ∈ k) → l = k.
Proof.
  intros Hl Hk Hext.
  apply (StronglySorted_unique_strong (λ a b, ID a < ID b)); [|done|done|].
  - intros x1 x2 _ _ H12 H21. lia.
  - apply NoDup_Permutation; auto using ascending_NoDup.
Qed.

Lemma ascending_filter (P : Book → Prop) `{∀ b, Decision (P b)} (l : list Book) :
  ascending l → ascending (filter P l).
Proof.
  induction 1 as [|b l Hl IH Hb]; [constructor|].
  rewrite filter_cons. case_decide; [|done].
  constructor; [done|].
  rewrite Forall_forall in Hb. apply Forall_forall.
  intros b' Hb'. apply list_elem_of_filter in Hb' as [_ Hb']. by apply Hb.
Qed.

Lemma run_listBooks_as_slice (db : database) :
  failing db = None →
  run pg (listBooks fresh) db
  = (respondJSON fresh http.StatusOK (VBooks (as_slice (select_all (books db)))), db, []).
Proof.
  intros Hup. rewrite run_listBooks_pg by done.
  by destruct (select_all (books db)).
Qed.

Lemma select_all_insert_last (m : gmap Z row) (k : Z) (r : row) :
  (∀ id r', m !! id = Some r' → id < k) →
  select_all (<[k := r]> m) = select_all m ++ [scan_row (k, r)].
Proof.
  intros Hbelow. apply ascending_ext.
  - apply select_all_ascending.
  - apply StronglySorted_app. split; [|split].
    + intros b1 b2 Hb1 Hb2. apply list_elem_of_singleton in Hb2 as ->.
      apply elem_of_select_all in Hb1. apply Hbelow in Hb1. cbn. lia.
    + apply select_all_ascending.
    + repeat constructor.
  - intros b. rewrite elem_of_app, list_elem_of_singleton, !elem_of_select_all.
    rewrite lookup_insert. case_decide as Hk.
    + split.
      * intros [= ->]. right. destruct b as [i t a c u]. cbn in Hk. by subst k.
      * intros [Hm| ->]; [|by destruct r]. apply Hbelow in Hm. lia.
    + split; [by left|]. intros [Hm| ->]; [done|]. by destruct Hk.
Qed.

Lemma select_all_delete (m : gmap Z row) (k : Z) :
  select_all (delete k m) = filter (λ b, ID b ≠ k) (select_all m).
Proof.
  apply ascending_ext.
  - apply select_all_ascending.
  - apply ascending_filter, select_all_ascending.
  - intros b. rewrite list_elem_of_filter, !elem_of_select_all, lookup_delete.
    case_decide as Hk.
    + split; [done|]. intros [Hne _]. by destruct Hne.
    + split; [intros Hb; split; [congruence|done]|by intros [_ Hb]].
Qed.

Lemma select_all_update (m : gmap Z row) (k : Z) (old r : row) :
  m !! k = Some old →
  select_all (<[k := r]> m)
  = (λ b, if decide (ID b = k) then scan_row (k, r) else b) <$> select_all m.
Proof.
  intros Hold. apply ascending_ext.
  - apply select_all_ascending.
  - apply (StronglySorted_fmap _ (λ a b, ID a < ID b) (λ a b, ID a < ID b));
      [|apply select_all_ascending].
    intros b1 b2 H12. by repeat case_decide; cbn; subst; lia.
  - intros b. rewrite list_elem_of_fmap, elem_of_select_all. split.
    + intros Hb. destruct (decide (ID b = k)) as [Hk|Hk].
      * exists (scan_row (k, old)).
        split; [|apply elem_of_select_all; by destruct old].
        cbn. rewrite decide_True by done.
        rewrite Hk, lookup_insert_eq in Hb. injection Hb as ->.
        destruct b as [i t a c u]. cbn in Hk. by subst k.
      * exists b. rewrite decide_False by done. split; [done|].
        apply elem_of_select_all. by rewrite lookup_insert_ne in Hb.
    + intros (b0 & -> & Hb0). apply elem_of_select_all in Hb0.
      case_decide as Hk; cbn.
      * rewrite lookup_insert_eq. by destruct r.
      * by rewrite lookup_insert_ne.
Qed.

(** X13: after a Create on a working connection and a table in its
    invariant, the listing is the listing of before followed by the new
    book: the new book is the last element of what List answers. *)
Theorem X13_created_book_is_listed_last
    (Decode : string → res bookPayload) (r : Request) (t a : string) (db : database) :
  Decode (ReqBody r) = Ok (mkPayload t a) → t ≠ "" → a ≠ "" →
  consistent db → failing db = None →
  let db1 := (run pg (createBook Decode fresh r) db).1.2 in
  let b := mkBook (books_id_seq db) t a (now db) (now db) in
  select_all (books db1) = select_all (books db) ++ [b] ∧
  ∀ db2 : database,
    books db2 = books db1 → failing db2 = None →
    run pg (listBooks fresh) db2
    = (respondJSON fresh http.StatusOK (VBooks (Some (select_all (books db) ++ [b]))),
       db2, []).
Proof.
  intros Hdec Ht Ha Hc Hup db1 b. subst db1 b.
  rewrite (run_createBook_pg Decode r t a db Hdec Ht Ha Hup (consistent_next_id db Hc)).
  cbn [fst snd books].
  assert (Hsel : select_all (<[books_id_seq db := mkRow t a (now db) (now db)]> (books db))
                 = select_all (books db) ++ [mkBook (books_id_seq db) t a (now db) (now db)]).
  { apply select_all_insert_last. intros id r' Hr'. apply (proj2 Hc) in Hr'. lia. }
  split; [done|]. intros db2 Hsame Hup2.
  rewrite run_listBooks_as_slice by done. rewrite Hsame, Hsel.
  by destruct (select_all (books db)).
Qed.

Lemma X13_witness :
  let db1 := (run pg (createBook decode_bar fresh (mkRequest "POST" "/books" "Emma|Austen"))
                one_book).1.2 in
  let b := mkBook (books_id_seq one_book) "Emma" "Austen" (now one_book) (now one_book) in
  select_all (books db1) = select_all (books one_book) ++ [b] ∧
  ∀ db2 : database,
    books db2 = books db1 → failing db2 = None →
    run pg (listBooks fresh) db2
    = (respondJSON fresh http.StatusOK (VBooks (Some (select_all (books one_book) ++ [b]))),
       db2, []).
Proof.
  apply (X13_created_book_is_listed_last decode_bar
           (mkRequest "POST" "/books" "Emma|Austen") "Emma" "Austen" one_book).
  - reflexivity.
  - discriminate.
  - discriminate.
  - apply run_consistent, consistent_empty.
  - reflexivity.
Defined.

(** X14: after a Delete that answered 204, the listing is the listing
    of before without the book of that id, the other books in the same
    order; after a Delete that answered 404 it is the same listing. *)
Theorem X14_deleted_book_leaves_the_listing (db : database) (id : Z) :
  failing db = None →
  let db1 := (run pg (deleteBook fresh id) db).1.2 in
  select_all (books db1) = filter (λ b, ID b ≠ id) (select_all (books db)) ∧
  ∀ db2 : database,
    books db2 = books db1 → failing db2 = None →
    run pg (listBooks fresh) db2
    = (respondJSON fresh http.StatusOK
         (VBooks (as_slice (filter (λ b, ID b ≠ id) (select_all (books db))))), db2, []).
Proof.
  intros Hup db1. subst db1. rewrite run_deleteBook_pg by done.
  assert (Hsel : select_all (books (match books db !! id with
                                    | Some _ => (WriteHeader fresh http.StatusNoContent,
                                                 with_books db (delete id (books db)),
                                                 @nil string)
                                    | None => (respondError fresh http.StatusNotFound
                                                 "book not found", db, [])
                                    end).1.2)
                 = filter (λ b, ID b ≠ id) (select_all (books db))).
  { destruct (books db !! id) as [old|] eqn:Hold; cbn [fst snd books with_books].
    - apply select_all_delete.
    - rewrite <- select_all_delete. by rewrite delete_id. }
  split; [done|]. intros db2 Hsame Hup2.
  rewrite run_listBooks_as_slice by done. by rewrite Hsame, Hsel.
Qed.

Lemma X14_witness :
  let db1 := (run pg (deleteBook fresh 1) one_book).1.2 in
  select_all (books db1) = filter (λ b, ID b ≠ 1) (select_all (books one_book)) ∧
  ∀ db2 : database,
    books db2 = books db1 → failing db2 = None →
    run pg (listBooks fresh) db2
    = (respondJSON fresh http.StatusOK
         (VBooks (as_slice (filter (λ b, ID b ≠ 1) (select_all (books one_book))))),
       db2, []).
Proof.
  apply (X14_deleted_book_leaves_the_listing one_book 1). reflexivity.
Defined.

(** X15: after an Update that answered 200, the listing is the listing
    of before with the book of that id replaced, at its place, by the
    record the Update returned; no book moves and none is added. *)
Theorem X15_updated_book_keeps_its_place
    (Decode : string → res bookPayload) (r : Request) (id : Z) (t a : string)
    (old : row) (db : database) :
  Decode (ReqBody r) = Ok (mkPayload t a) → t ≠ "" → a ≠ "" →
  failing db = None → books db !! id = Some old →
  let db1 := (run pg (updateBook Decode fresh r id) db).1.2 in
  let b := mkBook id t a (created_at old) (now db) in
  select_all (books db1)
  = (λ b0, if decide (ID b0 = id) then b else b0) <$> select_all (books db) ∧
  length (select_all (books db1)) = length (select_all (books db)).
Proof.
  intros Hdec Ht Ha Hup Hold db1 b. subst db1 b.
  rewrite (run_updateBook_pg Decode r id t a db Hdec Ht Ha Hup), Hold.
  cbn [fst snd books with_books].
  rewrite (select_all_update _ _ old) by done. split; [done|].
  by rewrite length_fmap.
Qed.

Lemma X15_witness :
  let db1 := (run pg (updateBook decode_bar fresh put_dune 1) one_book).1.2 in
  let b := mkBook 1 "Dune" "F. Herbert" 7 (now one_book) in
  select_all (books db1)
  = (λ b0, if decide (ID b0 = 1) then b else b0) <$> select_all (books one_book) ∧
  length (select_all (books db1)) = length (select_all (books one_book)).
Proof.
  apply (X15_updated_book_keeps_its_place decode_bar put_dune 1 "Dune" "F. Herbert"
           (mkRow "Dune" "Herbert" 7 7) one_book).
  - reflexivity.
  - discriminate.
  - discriminate.
  - reflexivity.
  - reflexivity.
Defined.

(** *** Get and List on the same table *)




(** X17: on a working connection, for every table, List answers 200
    with the stored books, each once and no other, in strictly
    ascending id order; the body is the JSON array of these books when
    there is one, and [null] when there is none. *)
Theorem X17_listing_is_the_table_in_id_order (db : database) :
  failing db = None →
  ∃ l : list Book,
    ascending l ∧
    (∀ b, b ∈ l ↔ books db !! ID b
                  = Some (mkRow (Title b) (Author b) (CreatedAt b) (UpdatedAt b))) ∧
    length l = size (books db) ∧
    run pg (listBooks fresh) db
    = (mkWriter [("Content-Type", "application/json")] (Some 200)
         [match l with [] => JNull | _ => JArray (Marshal_Book <$> l) end], db, []).
Proof.
  intros Hup. exists (select_all (books db)).
  split; [apply select_all_ascending|]. split; [apply elem_of_select_all|].
  split; [apply length_select_all|].
  rewrite run_listBooks_pg by done. by destruct (select_all (books db)).
Qed.

Lemma X17_witness :
  ∃ l : list Book,
    ascending l ∧
    (∀ b, b ∈ l ↔ books one_book !! ID b
                  = Some (mkRow (Title b) (Author b) (CreatedAt b) (UpdatedAt b))) ∧
    length l = size (books one_book) ∧
    run pg (listBooks fresh) one_book
    = (mkWriter [("Content-Type", "application/json")] (Some 200)
         [match l with [] => JNull | _ => JArray (Marshal_Book <$> l) end], one_book, []).
Proof. apply (X17_listing_is_the_table_in_id_order one_book). reflexivity. Defined.

(** X18: a Delete of the id that a Create returned undoes the Create on
    the rows: on a table in its invariant, with the connection working
    for both, the rows after the two requests are the rows of before
    (the sequence stays advanced). *)
Theorem X18_delete_undoes_create
    (Decode : string → res bookPayload) (r : Request) (t a : string) (db : database) :
  Decode (ReqBody r) = Ok (mkPayload t a) → t ≠ "" → a ≠ "" →
  consistent db → failing db = None →
  let db1 := (run pg (createBook Decode fresh r) db).1.2 in
  ∀ db2 : database,
    books db2 = books db1 → failing db2 = None →
    (run pg (deleteBook fresh (books_id_seq db)) db2).1.1
    = WriteHeader fresh http.StatusNoContent ∧
    books (run pg (deleteBook fresh (books_id_seq db)) db2).1.2 = books db ∧
    books_id_seq db1 = books_id_seq db + 1.
Proof.
  intros Hdec Ht Ha Hc Hup db1 db2 Hsame Hup2. subst db1.
  pose proof (consistent_next_id db Hc) as Hnew.
  rewrite (run_createBook_pg Decode r t a db Hdec Ht Ha Hup Hnew) in Hsame |- *.
  cbn [fst snd books books_id_seq] in Hsame |- *.
  rewrite run_deleteBook_pg by done. rewrite Hsame, lookup_insert_eq. cbn.
  split; [done|]. split; [|done]. by apply delete_insert_id.
Qed.

Lemma X18_witness :
  let db1 := (run pg (createBook decode_bar fresh (mkRequest "POST" "/books" "Emma|Austen"))
                one_book).1.2 in
  (run pg (deleteBook fresh (books_id_seq one_book)) db1).1.1
  = WriteHeader fresh http.StatusNoContent ∧
  books (run pg (deleteBook fresh (books_id_seq one_book)) db1).1.2 = books one_book ∧
  books_id_seq db1 = books_id_seq one_book + 1.
Proof.
  apply (X18_delete_undoes_create decode_bar
           (mkRequest "POST" "/books" "Emma|Austen") "Emma" "Austen" one_book).
  - reflexivity.
  - discriminate.
  - discriminate.
  - apply run_consistent, consistent_empty.
  - reflexivity.
  - reflexivity.
  - reflexivity.
Defined.

(** *** Which rows a request can touch *)

Section Frame.

Context (Decode : string → res bookPayload).

Lemma createBook_keeps_rows (r : Request) (db : database) (id : Z) (old : row) :
  books db !! id = Some old →
  books (run pg (createBook Decode fresh r) db).1.2 !! id = Some old.
Proof.
  intros Hold. unfold createBook. destruct (Decode _) as [[t a]|e]; [|done].
  destruct (_ || _); [done|].
  cbn. destruct (failing db) as [e|]; [done|].
  cbn. destruct (books db !! books_id_seq db) as [taken|] eqn:Hid; cbn; [done|].
  rewrite lookup_insert_ne; [done|congruence].
Qed.

Lemma updateBook_keeps_others (r : Request) (db : database) (id id' : Z) :
  id' ≠ id →
  books (run pg (updateBook Decode fresh r id) db).1.2 !! id' = books db !! id'.
Proof.
  intros Hne. unfold updateBook. destruct (Decode _) as [[t a]|e]; [|done].
  destruct (_ || _); [done|].
  cbn. destruct (failing db) as [e|]; [cbn; by destruct e|].
  destruct (books db !! id) as [old|]; cbn; [|done].
  by rewrite lookup_insert_ne.
Qed.

Lemma deleteBook_keeps_others (db : database) (id id' : Z) :
  id' ≠ id →
  books (run pg (deleteBook fresh id) db).1.2 !! id' = books db !! id'.
Proof.
  intros Hne. cbn. destruct (failing db) as [e|]; [done|].
  destruct (books db !! id) as [old|]; cbn; [|done].
  by rewrite lookup_delete_ne.
Qed.

End Frame.

(** X21: on the books table, a request on the collection route leaves
    every stored row as it is (it can only add one), and a request on
    the per-id route leaves every row but that of the id its segment
    parses to as it is (and every row, when the segment does not
    parse): no request reaches a row it does not name. *)
Theorem X21_a_request_touches_only_its_row
    (Decode : string → res bookPayload) (r : Request) (db : database) :
  (∀ id old, books db !! id = Some old →
     books (run pg (handle Decode Books r) db).1.2 !! id = Some old) ∧
  (∀ id, strconv.ParseInt (strings.TrimPrefix (URL_Path r) "/books/") ≠ (id, None) →
     books (run pg (handle Decode BookByID r) db).1.2 !! id = books db !! id).
Proof.
  split.
  - intros id old Hold. cbn [handle]. unfold handleBooks.
    destruct (String.eqb _ _); [by rewrite listBooks_reads|].
    destruct (String.eqb _ _); [by apply createBook_keeps_rows|done].
  - intros id Hother. cbn [handle]. unfold handleBookByID.
    destruct (strconv.ParseInt _) as [id0 [e|]]; [done|].
    assert (id ≠ id0) by congruence.
    destruct (String.eqb _ _); [by rewrite getBook_reads|].
    destruct (String.eqb _ _); [by apply updateBook_keeps_others|].
    destruct (String.eqb _ _); [by apply deleteBook_keeps_others|done].
Qed.

(** X22: Create does not look for a book with the same title and
    author: on a table in its invariant and a working connection, the
    same valid request sent twice answers 201 twice and stores two
    rows, equal in title and author, under two ids one apart. *)
Theorem X22_create_twice_stores_two_books
    (Decode : string → res bookPayload) (r : Request) (t a : string) (db : database) :
  Decode (ReqBody r) = Ok (mkPayload t a) → t ≠ "" → a ≠ "" →
  consistent db → failing db = None →
  let '(w1, db1, _) := run pg (createBook Decode fresh r) db in
  let '(w2, db2, _) := run pg (createBook Decode fresh r) db1 in
  Status w1 = Some 201 ∧ Status w2 = Some 201 ∧
  books db2 !! books_id_seq db = Some (mkRow t a (now db) (now db)) ∧
  books db2 !! (books_id_seq db + 1) = Some (mkRow t a (now db) (now db)) ∧
  size (books db2) = Datatypes.S (Datatypes.S (size (books db))).
Proof.
  intros Hdec Ht Ha Hc Hup.
  pose proof (consistent_next_id db Hc) as Hnew.
  rewrite (run_createBook_pg Decode r t a db Hdec Ht Ha Hup Hnew).
  pose proof (consistent_insert db (mkRow t a (now db) (now db)) (now db) (failing db) Hc)
    as Hc1.
  pose proof (consistent_next_id _ Hc1) as Hnew1.
  rewrite (run_createBook_pg Decode r t a
             (mkDB (<[books_id_seq db := mkRow t a (now db) (now db)]> (books db))
                (books_id_seq db + 1) (now db) (failing db)) Hdec Ht Ha Hup Hnew1).
  cbn [books books_id_seq now failing] in *.
  split; [done|]. split; [done|]. split; [|split].
  - rewrite lookup_insert_ne by lia. by rewrite lookup_insert_eq.
  - by rewrite lookup_insert_eq.
  - by rewrite !map_size_insert_None.
Qed.

Lemma X22_witness :
  let '(w1, db1, _) := run pg (createBook decode_bar fresh post_dune) (empty_db 7) in
  let '(w2, db2, _) := run pg (createBook decode_bar fresh post_dune) db1 in
  Status w1 = Some 201 ∧ Status w2 = Some 201 ∧
  books db2 !! books_id_seq (empty_db 7) = Some (mkRow "Dune" "Herbert" 7 7) ∧
  books db2 !! (books_id_seq (empty_db 7) + 1) = Some (mkRow "Dune" "Herbert" 7 7) ∧
  size (books db2) = Datatypes.S (Datatypes.S (size (books (empty_db 7)))).
Proof.
  apply (X22_create_twice_stores_two_books decode_bar post_dune "Dune" "Herbert"
           (empty_db 7)).
  - reflexivity.
  - discriminate.
  - discriminate.
  - apply consistent_empty.
  - reflexivity.
Defined.

(** ** Startup *)







(** ** Every request, with the encoder as it is *)


Section Wire.

Context {S : Type} (d : ∀ X, dbCall X → S → X * S).
Context (Decode : string → res bookPayload) (Encode_err : value → option error).

Lemma run_wire_respondJSON (code : Z) (v : value) (s : S) :
  run d (wire.respondJSON Encode_err fresh code v) s
  = match Encode_err v with
    | None =>
        (mkWriter (Header (wire.head code)) (Status (wire.head code)) [Marshal v], s, [])
    | Some err => (wire.head code, s, ["write response: " +:+ Error err])
    end.
Proof.
  unfold wire.respondJSON, wire.Encode. by destruct (Encode_err v).
Qed.

Lemma wire_respondJSON_answer (code : Z) (v : value) (s : S) :
  wire.intent code v [] →
  wire.answer Encode_err (run d (wire.respondJSON Encode_err fresh code v) s).1.1
    (run d (wire.respondJSON Encode_err fresh code v) s).2.
Proof.
  intros Hi. rewrite run_wire_respondJSON.
  destruct (Encode_err v) as [err|] eqn:He; cbn [fst snd].
  - by apply (wire.answer_lost Encode_err code v []).
  - by apply wire.answer_written.
Qed.

Lemma wire_refused_answer (code : Z) (msg : string) (s : S) :
  code ∈ [http.StatusBadRequest; http.StatusNotFound; http.StatusMethodNotAllowed] →
  wire.answer Encode_err (run d (wire.respondError Encode_err fresh code msg) s).1.1
    (run d (wire.respondError Encode_err fresh code msg) s).2.
Proof. intros Hc. apply wire_respondJSON_answer. by apply wire.intent_refused. Qed.

Lemma wire_internal_answer (e : error) (s : S) :
  wire.answer Encode_err (run d (wire.respondInternalError Encode_err fresh e) s).1.1
    (run d (wire.respondInternalError Encode_err fresh e) s).2.
Proof.
  unfold wire.respondInternalError, wire.respondError. cbn [run].
  rewrite run_wire_respondJSON.
  destruct (Encode_err _) as [err|] eqn:He; cbn [fst snd].
  - apply (wire.answer_lost Encode_err http.StatusInternalServerError
             (VMap [("error", "internal server error")])
             ["internal error: " +:+ Error e] err); [apply wire.intent_internal|done].
  - apply wire.answer_written; [apply wire.intent_internal|done].
Qed.

Lemma wire_listBooks_loop_answer (rs : list (res Book)) (acc : slice Book) (s : S) :
  wire.answer Encode_err (run d (wire.listBooks_loop Encode_err fresh rs acc) s).1.1
    (run d (wire.listBooks_loop Encode_err fresh rs acc) s).2.
Proof.
  revert acc. induction rs as [|[b|e] rs IH]; intros acc; cbn [wire.listBooks_loop].
  - apply wire_respondJSON_answer, wire.intent_books.
  - apply IH.
  - apply wire_internal_answer.
Qed.

Lemma wire_listBooks_answer (s : S) :
  wire.answer Encode_err (run d (wire.listBooks Encode_err fresh) s).1.1
    (run d (wire.listBooks Encode_err fresh) s).2.
Proof.
  unfold wire.listBooks. cbn [run]. destruct (d _ _ s) as [[rows|e] s'].
  - apply wire_listBooks_loop_answer.
  - apply wire_internal_answer.
Qed.

Lemma wire_getBook_answer (id : Z) (s : S) :
  wire.answer Encode_err (run d (wire.getBook Encode_err fresh id) s).1.1
    (run d (wire.getBook Encode_err fresh id) s).2.
Proof.
  unfold wire.getBook. cbn [run]. destruct (d _ _ s) as [[b|[|text]] s']; cbn [is_ErrNoRows].
  - apply wire_respondJSON_answer, wire.intent_book.
  - apply wire_refused_answer, list_elem_of_In. cbn. tauto.
  - apply wire_internal_answer.
Qed.

Lemma wire_deleteBook_answer (id : Z) (s : S) :
  wire.answer Encode_err (run d (wire.deleteBook Encode_err fresh id) s).1.1
    (run d (wire.deleteBook Encode_err fresh id) s).2.
Proof.
  unfold wire.deleteBook. cbn [run]. destruct (d _ _ s) as [[[[n oe]]|e] s'].
  - cbn [RowsAffected]. destruct (n =? 0).
    + apply wire_refused_answer, list_elem_of_In. cbn. tauto.
    + apply wire.answer_no_content.
  - apply wire_internal_answer.
Qed.

Lemma wire_createBook_answer (r : Request) (s : S) :
  wire.answer Encode_err (run d (wire.createBook Decode Encode_err fresh r) s).1.1
    (run d (wire.createBook Decode Encode_err fresh r) s).2.
Proof.
  unfold wire.createBook. destruct (Decode _) as [payload|e].
  - destruct (_ || _); [apply wire_refused_answer, list_elem_of_In; cbn; tauto|].
    cbn [run]. destruct (d _ _ s) as [[b|e] s'].
    + apply wire_respondJSON_answer, wire.intent_created.
    + apply wire_internal_answer.
  - apply wire_refused_answer, list_elem_of_In. cbn. tauto.
Qed.

Lemma wire_updateBook_answer (r : Request) (id : Z) (s : S) :
  wire.answer Encode_err (run d (wire.updateBook Decode Encode_err fresh r id) s).1.1
    (run d (wire.updateBook Decode Encode_err fresh r id) s).2.
Proof.
  unfold wire.updateBook. destruct (Decode _) as [payload|e].
  - destruct (_ || _); [apply wire_refused_answer, list_elem_of_In; cbn; tauto|].
    cbn [run]. destruct (d _ _ s) as [[b|[|text]] s']; cbn [is_ErrNoRows].
    + apply wire_respondJSON_answer, wire.intent_book.
    + apply wire_refused_answer, list_elem_of_In. cbn. tauto.
    + apply wire_internal_answer.
  - apply wire_refused_answer, list_elem_of_In. cbn. tauto.
Qed.

Lemma wire_handle_answer (via : route) (r : Request) (s : S) :
  wire.answer Encode_err (run d (wire.handle Decode Encode_err via r) s).1.1
    (run d (wire.handle Decode Encode_err via r) s).2.
Proof.
  destruct via; cbn [wire.handle].
  - unfold wire.handleBooks.
    destruct (String.eqb _ _); [apply wire_listBooks_answer|].
    destruct (String.eqb _ _); [apply wire_createBook_answer|].
    apply wire_refused_answer, list_elem_of_In. cbn. tauto.
  - unfold wire.handleBookByID.
    destruct (strconv.ParseInt _) as [id [e|]];
      [apply wire_refused_answer, list_elem_of_In; cbn; tauto|].
    destruct (String.eqb _ _); [apply wire_getBook_answer|].
    destruct (String.eqb _ _); [apply wire_updateBook_answer|].
    destruct (String.eqb _ _); [apply wire_deleteBook_answer|].
    apply wire_refused_answer, list_elem_of_In. cbn. tauto.
Qed.

End Wire.

Lemma intent_cases (code : Z) (v : value) (log : list string) :
  wire.intent code v log →
  (log = [] ∧ (code = 200 ∨ code = 201))
  ∨ (log = [] ∧ (code = 400 ∨ code = 404 ∨ code = 405) ∧ ∃ msg, v = VMap [("error", msg)])
  ∨ (code = 500 ∧ v = VMap [("error", "internal server error")] ∧
     ∃ e, log = ["internal error: " +:+ Error e]).
Proof.
  destruct 1 as [bs|b|b|code msg Hc|e].
  - left. split; [done|by left].
  - left. split; [done|by left].
  - left. split; [done|by right].
  - right. left. split; [done|]. split; [|by exists msg].
    apply list_elem_of_In in Hc.
    unfold http.StatusBadRequest, http.StatusNotFound, http.StatusMethodNotAllowed in Hc.
    cbn in Hc. lia.
  - right. right. split; [done|]. split; [done|]. by exists e.
Qed.


(** X2: whatever the request, the route, the driver and the encoder do,
    one status line is sent, out of 200, 201, 204, 400, 404, 405 and
    500.  A 204 has no header set, no body and no log.  Every other
    answer has the JSON content type, and its body is one document
    (from 400 on, an object with the single field [error]), or it is
    empty, in which case a line [write response: ...] is logged. *)
Theorem X2_response_shape
    {S : Type} (d : ∀ X, dbCall X → S → X * S) (Decode : string → res bookPayload)
    (Encode_err : value → option error) (via : route) (r : Request) (s : S) :
  let '(w, _, log) := run d (wire.handle Decode Encode_err via r) s in
  ∃ code : Z,
    Status w = Some code ∧ code ∈ [200; 201; 204; 400; 404; 405; 500] ∧
    (code = 204 → Header w = [] ∧ Body w = [] ∧ log = []) ∧
    (code ≠ 204 →
     Header w = [("Content-Type", "application/json")] ∧
     ((∃ doc, Body w = [doc] ∧
              (400 ≤ code → ∃ msg, doc = JObject [("error", JString msg)]))
      ∨ (Body w = [] ∧ ∃ err, "write response: " +:+ Error err ∈ log))).
Proof.
  pose proof (wire_handle_answer d Decode Encode_err via r s) as Ha.
  destruct (run d (wire.handle Decode Encode_err via r) s) as [[w s'] log]. cbn in Ha.
  destruct Ha as [code v log Hi Hok|code v log err Hi Herr|].
  - exists code. apply intent_cases in Hi as Hc. cbn.
    split; [done|]. split; [apply list_elem_of_In; cbn; lia|].
    split; [lia|]. intros _. split; [done|]. left. eexists. split; [done|].
    intros Hge. destruct Hc as [(_ & Hc)|[(_ & _ & msg & ->)|(_ & -> & _)]]; [lia|..];
      by eexists.
  - exists code. apply intent_cases in Hi as Hc. cbn.
    split; [done|]. split; [apply list_elem_of_In; cbn; lia|].
    split; [lia|]. intros _. split; [done|]. right. split; [done|]. exists err.
    apply elem_of_app. right. apply list_elem_of_here.
  - exists 204. cbn. split; [done|]. split; [apply list_elem_of_In; cbn; lia|].
    split; [done|]. intros Hne. by destruct Hne.
Qed.

Lemma X2_witness :
  let '(w, _, log) :=
    run far_future (wire.handle decode_bar no_books BookByID (mkRequest "GET" "/books/1" ""))
      tt in
  Status w = Some 200 ∧ Header w = [("Content-Type", "application/json")] ∧
  Body w = [] ∧ ∃ err, "write response: " +:+ Error err ∈ log.
Proof.
  pose proof (X2_response_shape far_future decode_bar no_books BookByID
                (mkRequest "GET" "/books/1" "") tt) as Hshape.
  destruct (run far_future _ tt) as [[w u] log] eqn:Hrun.
  vm_compute in Hrun. injection Hrun as <- _ <-.
  destruct Hshape as (code & Hcode & _ & _ & Hbody). injection Hcode as <-.
  destruct Hbody as [Hh [(doc & Hdoc & _)|[Hb Hlog]]]; [discriminate|discriminate|].
  by repeat split.
Defined.

(** When the encoder does not fail, these are the handlers over the
    pure [respondJSON]: same answer, same state, same log, same
    statements. *)
Section Encoded.

Context {S : Type} (d : ∀ X, dbCall X → S → X * S).
Context (Decode : string → res bookPayload).

Lemma same_respondJSON (w : ResponseWriter) (code : Z) (v : value) :
  same d (wire.respondJSON encodes w code v) (Ret (respondJSON w code v)).
Proof. by intros s. Qed.

Lemma same_respondInternalError (w : ResponseWriter) (e : error) :
  same d (wire.respondInternalError encodes w e) (respondInternalError w e).
Proof. by intros s. Qed.

Lemma same_listBooks_loop (rs : list (res Book)) (acc : slice Book) :
  same d (wire.listBooks_loop encodes fresh rs acc) (listBooks_loop fresh rs acc).
Proof. revert acc. induction rs as [|[b|e] rs IH]; intros acc; [done|apply IH|done]. Qed.

Lemma same_handle (via : route) (r : Request) :
  same d (wire.handle Decode encodes via r) (handle Decode via r).
Proof.
  intros s. destruct via; cbn [wire.handle handle].
  - unfold wire.handleBooks, handleBooks.
    destruct (String.eqb _ _).
    { unfold wire.listBooks, listBooks. cbn [run calls].
      destruct (d _ _ s) as [[rows|e] s']; [|done].
      by destruct (same_listBooks_loop (scans rows) None s') as [-> ->]. }
    destruct (String.eqb _ _); [|done].
    unfold wire.createBook, createBook. destruct (Decode _) as [payload|e]; [|done].
    destruct (_ || _); [done|]. cbn [run calls]. by destruct (d _ _ s) as [[b|e] s'].
  - unfold wire.handleBookByID, handleBookByID.
    destruct (strconv.ParseInt _) as [id [e|]]; [done|].
    destruct (String.eqb _ _).
    { unfold wire.getBook, getBook. cbn [run calls].
      by destruct (d _ _ s) as [[b|[|text]] s']. }
    destruct (String.eqb _ _).
    { unfold wire.updateBook, updateBook. destruct (Decode _) as [payload|e]; [|done].
      destruct (_ || _); [done|]. cbn [run calls].
      by destruct (d _ _ s) as [[b|[|text]] s']. }
    destruct (String.eqb _ _); [|done].
    unfold wire.deleteBook, deleteBook. cbn [run calls].
    destruct (d _ _ s) as [[[[n oe]]|e] s']; [|done]. cbn. by destruct (n =? 0).
Qed.

End Encoded.

(** Whatever the encoder does, the status line and the final state are
    those of the handlers whose encoder never fails: the status line is
    written before the document is encoded. *)
Section Alike.

Context {S : Type} (d : ∀ X, dbCall X → S → X * S).
Context (Decode : string → res bookPayload) (Encode_err : value → option error).

Lemma alike_respondJSON (code : Z) (v : value) (s : S) :
  alike (run d (wire.respondJSON Encode_err fresh code v) s)
    (run d (Ret (respondJSON fresh code v)) s).
Proof. rewrite run_wire_respondJSON. by destruct (Encode_err v). Qed.

Lemma alike_respondInternalError (e : error) (s : S) :
  alike (run d (wire.respondInternalError Encode_err fresh e) s)
    (run d (respondInternalError fresh e) s).
Proof.
  unfold wire.respondInternalError, wire.respondError. cbn [run].
  rewrite run_wire_respondJSON. by destruct (Encode_err _).
Qed.

Lemma alike_listBooks_loop (rs : list (res Book)) (acc : slice Book) (s : S) :
  alike (run d (wire.listBooks_loop Encode_err fresh rs acc) s)
    (run d (listBooks_loop fresh rs acc) s).
Proof.
  revert acc. induction rs as [|[b|e] rs IH]; intros acc;
    cbn [wire.listBooks_loop listBooks_loop].
  - apply alike_respondJSON.
  - apply IH.
  - apply alike_respondInternalError.
Qed.

Lemma alike_handle (via : route) (r : Request) (s : S) :
  alike (run d (wire.handle Decode Encode_err via r) s) (run d (handle Decode via r) s).
Proof.
  assert (Hrefused : ∀ code msg,
            alike (run d (wire.respondError Encode_err fresh code msg) s)
              (run d (Ret (respondError fresh code msg)) s))
    by (intros code msg; apply alike_respondJSON).
  destruct via; cbn [wire.handle handle].
  - unfold wire.handleBooks, handleBooks.
    destruct (String.eqb _ _).
    { unfold wire.listBooks, listBooks. cbn [run].
      destruct (d _ _ s) as [[rows|e] s'].
      - apply alike_listBooks_loop.
      - apply alike_respondInternalError. }
    destruct (String.eqb _ _); [|apply Hrefused].
    unfold wire.createBook, createBook.
    destruct (Decode _) as [payload|e]; [|apply Hrefused].
    destruct (_ || _); [apply Hrefused|]. cbn [run].
    destruct (d _ _ s) as [[b|e] s'].
    + apply alike_respondJSON.
    + apply alike_respondInternalError.
  - unfold wire.handleBookByID, handleBookByID.
    destruct (strconv.ParseInt _) as [id [e|]]; [apply Hrefused|].
    destruct (String.eqb _ _).
    { unfold wire.getBook, getBook. cbn [run].
      destruct (d _ _ s) as [[b|[|text]] s']; cbn [is_ErrNoRows].
      - apply alike_respondJSON.
      - apply alike_respondJSON.
      - apply alike_respondInternalError. }
    destruct (String.eqb _ _).
    { unfold wire.updateBook, updateBook.
      destruct (Decode _) as [payload|e]; [|apply Hrefused].
      destruct (_ || _); [apply Hrefused|]. cbn [run].
      destruct (d _ _ s) as [[b|[|text]] s']; cbn [is_ErrNoRows].
      - apply alike_respondJSON.
      - apply alike_respondJSON.
      - apply alike_respondInternalError. }
    destruct (String.eqb _ _); [|apply Hrefused].
    unfold wire.deleteBook, deleteBook. cbn [run].
    destruct (d _ _ s) as [[[[n oe]]|e] s']; [|apply alike_respondInternalError].
    cbn [RowsAffected fst]. destruct (n =? 0); [apply alike_respondJSON|done].
Qed.

End Alike.

(** ** Every request, on the server as it is *)

Lemma returns_run {A S : Type} (d : ∀ X, dbCall X → S → X * S)
    (p : prog A) (a : A) (log : list string) (s : S) :
  returns p a log → run d p s = (a, s, log).
Proof. induction 1 as [a|line p a log Hp IH]; cbn; [done|by rewrite IH]. Qed.

Lemma respondInternalError_returns (e : error) :
  returns (respondInternalError fresh e) internal_error_response
    ["internal error: " +:+ Error e].
Proof. apply returns_Printf, (returns_Ret internal_error_response). Qed.

Lemma listBooks_loop_returns (rs : list (res Book)) (acc : slice Book) :
  ∃ w log, returns (listBooks_loop fresh rs acc) w log.
Proof.
  revert acc. induction rs as [|[b|e] rs IH]; intros acc; cbn [listBooks_loop].
  - eexists _, _. apply returns_Ret.
  - apply IH.
  - eexists _, _. apply respondInternalError_returns.
Qed.

Lemma handle_shape (Decode : string → res bookPayload) (via : route) (r : Request) :
  shape (handle Decode via r).
Proof.
  assert (Hret : ∀ w : ResponseWriter, ∃ w' log, returns (Ret w) w' log)
    by (intros w; eexists _, _; apply returns_Ret).
  assert (Hint : ∀ e, ∃ w' log, returns (respondInternalError fresh e) w' log)
    by (intros e; eexists _, _; apply respondInternalError_returns).
  destruct via; cbn [handle].
  - unfold handleBooks. destruct (String.eqb _ _).
    { apply shape_call; [|intros text; apply (respondInternalError_returns (ErrOther text))].
      intros [rows|e]; [apply listBooks_loop_returns|apply Hint]. }
    destruct (String.eqb _ _);
      [|apply shape_refused, list_elem_of_In; cbn; tauto].
    unfold createBook. destruct (Decode _) as [payload|e];
      [|apply shape_refused, list_elem_of_In; cbn; tauto].
    destruct (_ || _); [apply shape_refused, list_elem_of_In; cbn; tauto|].
    apply shape_call; [|intros text; apply (respondInternalError_returns (ErrOther text))].
    intros [b|e]; [apply Hret|apply Hint].
  - unfold handleBookByID.
    destruct (strconv.ParseInt _) as [id [e|]];
      [apply shape_refused, list_elem_of_In; cbn; tauto|].
    destruct (String.eqb _ _).
    { apply shape_call; [|intros text; apply (respondInternalError_returns (ErrOther text))].
      intros [b|[|text]]; cbn; [apply Hret|apply Hret|apply Hint]. }
    destruct (String.eqb _ _).
    { unfold updateBook. destruct (Decode _) as [payload|e];
        [|apply shape_refused, list_elem_of_In; cbn; tauto].
      destruct (_ || _); [apply shape_refused, list_elem_of_In; cbn; tauto|].
      apply shape_call; [|intros text; apply (respondInternalError_returns (ErrOther text))].
      intros [b|[|text]]; cbn; [apply Hret|apply Hret|apply Hint]. }
    destruct (String.eqb _ _);
      [|apply shape_refused, list_elem_of_In; cbn; tauto].
    apply shape_call; [|intros text; apply (respondInternalError_returns (ErrOther text))].
    intros [[[n oe]]|e]; cbn; [|apply Hint]. destruct (n =? 0); apply Hret.
Qed.

(** One call and then none: the state is the driver's, the answer is
    what the rest returns. *)
Lemma run_one_call {S X : Type} (d : ∀ X, dbCall X → S → X * S)
    (c : dbCall X) (k : X → prog ResponseWriter) (s : S) :
  (∀ x, ∃ w log, returns (k x) w log) →
  ∃ w log, returns (k (d X c s).1) w log ∧ run d (Call c k) s = (w, (d X c s).2, log).
Proof.
  intros Hk. cbn [run]. destruct (d X c s) as [x s']. cbn [fst snd].
  destruct (Hk x) as (w & log & Hr). exists w, log. split; [done|].
  by apply returns_run.
Qed.

Lemma returns_unique {A : Type} (p : prog A) (a a' : A) (log log' : list string) :
  returns p a log → returns p a' log' → a = a' ∧ log = log'.
Proof.
  intros H. revert a' log'. induction H as [a|line p a log Hp IH]; intros a' log' H'.
  - by inversion H'.
  - inversion H' as [|line' p' a'' log'' Hp']; subst.
    destruct (IH _ _ Hp') as [-> ->]. done.
Qed.

(** A statement that [postgres] runs is refused before it touches the
    table, or it is run as [pg] runs it. *)
Lemma postgres_runs_cases (X : Type) (c : dbCall X) (db : database) :
  (∃ text, postgres_runs X c db
           = (refuse (ErrOther text) X c,
              mkDB (books db) (books_id_seq db) (now db) None))
  ∨ postgres_runs X c db = pg X c (mkDB (books db) (books_id_seq db) (now db) None).
Proof.
  unfold postgres_runs. cbn zeta. destruct (negb _); [left; eexists; reflexivity|].
  destruct (_ && _); [left; eexists; reflexivity|by right].
Qed.

(** What [postgres] makes of one request, next to what [pg] makes of it
    on the same table: the rows and the sequence are untouched and the
    answer is a refusal or a 500; or the connection is up and all is as
    with [pg]; or the reply was lost, the table is as with [pg] and the
    answer is the 500 envelope. *)
Lemma postgres_cases (l : link) (Decode : string → res bookPayload)
    (via : route) (r : Request) (db : database) :
  let ideal :=
    run pg (handle Decode via r) (mkDB (books db) (books_id_seq db) (now db) None) in
  let real := run (postgres l) (handle Decode via r) db in
  (books real.1.2 = books db ∧ books_id_seq real.1.2 = books_id_seq db ∧
   Status real.1.1 ∈ [Some 400; Some 405; Some 500])
  ∨ (l = Up ∧ real.1.1 = ideal.1.1 ∧ real.1.2 = ideal.1.2)
  ∨ (∃ text, l = DownAfter text ∧ real.1.1 = internal_error_response ∧
             real.1.2 = ideal.1.2).
Proof.
  intros ideal real. subst ideal real.
  set (db0 := mkDB (books db) (books_id_seq db) (now db) None).
  destruct (handle_shape Decode via r) as [code msg Hc|X c k Hk Hfail].
  { left. cbn. split; [done|]. split; [done|].
    apply list_elem_of_In in Hc. apply list_elem_of_In. cbn in *.
    destruct Hc as [<-|[<-|[]]]; tauto. }
  assert (Hrefused : ∀ text (s : database),
            books s = books db → books_id_seq s = books_id_seq db →
            ∀ d : ∀ X, dbCall X → database → X * database,
              d X c db = (refuse (ErrOther text) X c, s) →
              books (run d (Call c k) db).1.2 = books db ∧
              books_id_seq (run d (Call c k) db).1.2 = books_id_seq db ∧
              Status (run d (Call c k) db).1.1 ∈ [Some 400; Some 405; Some 500]).
  { intros text s Hb Hs d Hd. cbn [run]. rewrite Hd.
    rewrite (returns_run d _ _ _ s (Hfail text)). cbn.
    split; [done|]. split; [done|]. apply list_elem_of_In. cbn. tauto. }
  destruct (run_one_call pg c k db0 Hk) as (wi & logi & Hwi & Hideal).
  rewrite Hideal. cbn [fst snd].
  destruct l as [|text|text].
  - destruct (postgres_runs_cases X c db) as [(text & Hp)|Hp].
    { left. by apply (Hrefused text db0). }
    right. left. split; [done|].
    destruct (run_one_call (postgres Up) c k db Hk) as (wr & logr & Hwr & Hreal).
    rewrite Hreal. cbn [fst snd].
    change (postgres Up X c db) with (postgres_runs X c db) in Hwr |- *.
    fold db0 in Hp. rewrite Hp in Hwr |- *. split; [|done].
    by destruct (returns_unique _ _ _ _ _ Hwr Hwi).
  - left. by apply (Hrefused text db).
  - assert (Hd : postgres (DownAfter text) X c db
                 = (refuse (ErrOther text) X c, (postgres_runs X c db).2)) by done.
    destruct (postgres_runs_cases X c db) as [(text' & Hp)|Hp]; rewrite Hp in Hd.
    { left. by apply (Hrefused text db0). }
    right. right. exists text. split; [done|].
    cbn [run]. rewrite Hd. rewrite (returns_run _ _ _ _ _ (Hfail text)). done.
Qed.

(** *** The rows, on the server as it is *)

Lemma effect_rows (db db' : database) (w : ResponseWriter) :
  effect db w db' →
  Status w ∈ [Some 400; Some 404; Some 405; Some 500] → books db' = books db.
Proof.
  intros He Hw.
  destruct He as [w Hw'|t a Ht Ha Hnew|taken Htaken|id old t a Ht Ha Hold|id old Hold];
    try done; cbn in Hw; absurd_status Hw.
Qed.

Lemma effect_row_count (db db' : database) (w : ResponseWriter) :
  effect db w db' →
  (Status w = Some 201 ↔ size (books db') = Datatypes.S (size (books db))) ∧
  (Status w = Some 204 ↔ Datatypes.S (size (books db')) = size (books db)) ∧
  (Status w ≠ Some 201 ∧ Status w ≠ Some 204 ↔ size (books db') = size (books db)).
Proof.
  intros He.
  destruct He as [w Hw|t a Ht Ha Hnew|taken Htaken|id old t a Ht Ha Hold|id old Hold]; cbn.
  - assert (Status w ≠ Some 201 ∧ Status w ≠ Some 204) as [H1 H4].
    { split; intros Heq; rewrite Heq in Hw; absurd_status Hw. }
    split; [split; [done|lia]|]. split; [split; [done|lia]|]. done.
  - rewrite map_size_insert_None by done.
    split; [done|]. split; [split; [discriminate|lia]|].
    split; [intros [H _]; by destruct H|lia].
  - split; [split; [discriminate|lia]|]. split; [split; [discriminate|lia]|].
    split; [done|]. by split.
  - rewrite map_size_insert_Some by done.
    split; [split; [discriminate|lia]|]. split; [split; [discriminate|lia]|].
    split; [done|]. by split.
  - rewrite map_size_delete_Some by done.
    assert (size (books db) ≠ 0%nat).
    { intros H0. apply map_size_empty_iff in H0. rewrite H0 in Hold.
      by rewrite lookup_empty in Hold. }
    split; [split; [discriminate|lia]|]. split; [split; [lia|done]|].
    split; [intros [_ Hno]; by destruct Hno|lia].
Qed.

Lemma get_reads (Decode : string → res bookPayload) (via : route) (r : Request)
    (db : database) :
  Method r = http.MethodGet → (run pg (handle Decode via r) db).1.2 = db.
Proof.
  intros Hm. destruct via; cbn [handle].
  - unfold handleBooks. rewrite Hm. apply listBooks_reads.
  - unfold handleBookByID. rewrite Hm.
    destruct (strconv.ParseInt _) as [id [e|]]; [done|]. apply getBook_reads.
Qed.

Lemma rows_on_the_server
    (l : link) (Decode : string → res bookPayload) (via : route) (r : Request)
    (db : database) :
  let '(w, db', _) := run (postgres l) (handle Decode via r) db in
  (Status w ∈ [Some 400; Some 404; Some 405] → books db' = books db) ∧
  (Status w = Some 500 → (∀ text, l ≠ DownAfter text) → books db' = books db) ∧
  (Method r = http.MethodGet →
   books db' = books db ∧ books_id_seq db' = books_id_seq db).
Proof.
  pose proof (postgres_cases l Decode via r db) as Hcases.
  pose proof (handle_effect Decode via r
                (mkDB (books db) (books_id_seq db) (now db) None)) as He.
  pose proof (get_reads Decode via r
                (mkDB (books db) (books_id_seq db) (now db) None)) as Hget.
  cbn zeta in Hcases.
  destruct (run (postgres l) (handle Decode via r) db) as [[w db'] log].
  destruct (run pg (handle Decode via r) _) as [[wi dbi] logi].
  cbn [fst snd] in Hcases, He, Hget.
  destruct Hcases as [(Hb & Hs & _)|[(-> & -> & ->)|(text & -> & -> & ->)]].
  - done.
  - split.
    { intros Hw. apply (effect_rows _ _ _ He).
      apply list_elem_of_In in Hw. apply list_elem_of_In. cbn in *. tauto. }
    split.
    { intros Hw _. apply (effect_rows _ _ _ He). rewrite Hw.
      apply list_elem_of_In. cbn. tauto. }
    intros Hm. by rewrite (Hget Hm).
  - split; [intros Hw; cbn in Hw; absurd_status Hw|].
    split; [intros _ Hl; by destruct (Hl text)|].
    intros Hm. by rewrite (Hget Hm).
Qed.

Lemma row_count_on_the_server
    (l : link) (Decode : string → res bookPayload) (via : route) (r : Request)
    (db : database) :
  let '(w, db', _) := run (postgres l) (handle Decode via r) db in
  (Status w = Some 201 → size (books db') = Datatypes.S (size (books db))) ∧
  (Status w = Some 204 → Datatypes.S (size (books db')) = size (books db)) ∧
  (Status w ∈ [Some 200; Some 400; Some 404; Some 405] →
   size (books db') = size (books db)) ∧
  (Status w = Some 500 →
   size (books db') = size (books db) ∨
   ∃ text, l = DownAfter text ∧
     (size (books db') = Datatypes.S (size (books db)) ∨
      Datatypes.S (size (books db')) = size (books db))).
Proof.
  pose proof (postgres_cases l Decode via r db) as Hcases.
  pose proof (handle_effect Decode via r
                (mkDB (books db) (books_id_seq db) (now db) None)) as He.
  apply effect_row_count in He. cbn [books] in He.
  cbn zeta in Hcases.
  destruct (run (postgres l) (handle Decode via r) db) as [[w db'] log].
  destruct (run pg (handle Decode via r) _) as [[wi dbi] logi].
  cbn [fst snd] in Hcases, He.
  destruct He as (H201 & H204 & Hsame).
  destruct Hcases as [(Hb & Hs & Hw)|[(-> & -> & ->)|(text & -> & -> & ->)]].
  - rewrite Hb.
    split; [intros Heq; rewrite Heq in Hw; absurd_status Hw|].
    split; [intros Heq; rewrite Heq in Hw; absurd_status Hw|].
    split; [done|]. by left.
  - split; [apply H201|]. split; [apply H204|].
    split.
    { intros Hw. apply Hsame.
      split; intros Heq; rewrite Heq in Hw; absurd_status Hw. }
    intros Hw. left. apply Hsame. by rewrite Hw.
  - split; [discriminate|]. split; [discriminate|].
    split; [intros Hw; cbn in Hw; absurd_status Hw|].
    intros _.
    destruct (decide (Status wi = Some 201)) as [H1|H1];
      [right; exists text; split; [done|]; left; by apply H201|].
    destruct (decide (Status wi = Some 204)) as [H4|H4];
      [right; exists text; split; [done|]; right; by apply H204|].
    left. by apply Hsame.
Qed.

(** X8: on the server as it is -- an id column of 32 bits, a sequence
    that runs out, a connection that breaks before a statement is sent or
    after it ran, an encoder that may fail -- a request answered 400, 404 or 405 leaves every row
    as it was; so does a request answered 500, unless the connection
    broke after the statement ran; and a GET, on either route, leaves
    the rows and the sequence as they were, whatever the connection
    does. *)
Theorem X8_errors_and_reads_change_no_row_on_the_server
    (l : link) (Decode : string → res bookPayload) (Encode_err : value → option error)
    (via : route) (r : Request) (db : database) :
  let '(w, db', _) := run (postgres l) (wire.handle Decode Encode_err via r) db in
  (Status w ∈ [Some 400; Some 404; Some 405] → books db' = books db) ∧
  (Status w = Some 500 → (∀ text, l ≠ DownAfter text) → books db' = books db) ∧
  (Method r = http.MethodGet →
   books db' = books db ∧ books_id_seq db' = books_id_seq db).
Proof.
  destruct (alike_handle (postgres l) Decode Encode_err via r db) as [Hst Hdb].
  pose proof (rows_on_the_server l Decode via r db) as Hrows.
  destruct (run (postgres l) (wire.handle Decode Encode_err via r) db) as [[w db'] log].
  destruct (run (postgres l) (handle Decode via r) db) as [[w0 db0] log0].
  cbn [fst snd] in Hst, Hdb. subst db0. rewrite Hst. exact Hrows.
Qed.

(** X9: on the server as it is, the number of rows follows the status:
    one more row with a 201, one less with a 204, the same number with
    200, 400, 404 and 405; with a 500 the number is the same too, unless
    the connection broke after the statement ran, and then it differs by
    one at most. *)
Theorem X9_row_count_follows_status_on_the_server
    (l : link) (Decode : string → res bookPayload) (Encode_err : value → option error)
    (via : route) (r : Request) (db : database) :
  let '(w, db', _) := run (postgres l) (wire.handle Decode Encode_err via r) db in
  (Status w = Some 201 → size (books db') = Datatypes.S (size (books db))) ∧
  (Status w = Some 204 → Datatypes.S (size (books db')) = size (books db)) ∧
  (Status w ∈ [Some 200; Some 400; Some 404; Some 405] →
   size (books db') = size (books db)) ∧
  (Status w = Some 500 →
   size (books db') = size (books db) ∨
   ∃ text, l = DownAfter text ∧
     (size (books db') = Datatypes.S (size (books db)) ∨
      Datatypes.S (size (books db')) = size (books db))).
Proof.
  destruct (alike_handle (postgres l) Decode Encode_err via r db) as [Hst Hdb].
  pose proof (row_count_on_the_server l Decode via r db) as Hcount.
  destruct (run (postgres l) (wire.handle Decode Encode_err via r) db) as [[w db'] log].
  destruct (run (postgres l) (handle Decode via r) db) as [[w0 db0] log0].
  cbn [fst snd] in Hst, Hdb. subst db0. rewrite Hst. exact Hcount.
Qed.

Lemma X9_witness :
  let '(w, db', _) :=
    run (postgres (DownAfter "unexpected EOF"))
      (wire.handle decode_bar no_books Books post_dune)
      (empty_db 7) in
  Status w = Some 500 ∧ size (books db') = 1%nat ∧
  ∃ text, DownAfter "unexpected EOF" = DownAfter text ∧
    (size (books db') = Datatypes.S (size (books (empty_db 7))) ∨
     Datatypes.S (size (books db')) = size (books (empty_db 7))).
Proof.
  pose proof (X9_row_count_follows_status_on_the_server (DownAfter "unexpected EOF")
                decode_bar no_books Books post_dune (empty_db 7)) as Hcount.
  destruct (run (postgres _) _ (empty_db 7)) as [[w db'] log] eqn:Hrun.
  vm_compute in Hrun. injection Hrun as <- <- _.
  destruct Hcount as (_ & _ & _ & H500).
  split; [done|]. split; [done|].
  destruct (H500 eq_refl) as [Hsame|Hlost]; [|done].
  vm_compute in Hsame. discriminate Hsame.
Defined.
